(** * GlanceThing: the ADB bridge module, embedded and verified

    The module drives a CarThing through the [adb] executable: it resolves
    the executable, lists and validates devices, and issues shell commands
    (brightness, install, restore, port forward).  Every function of the
    module is translated below; asynchronous calls run to completion one
    after the other, so [await] is sequencing in a monad that threads the
    history of effects and carries thrown exceptions.

    JavaScript numbers are IEEE-754 binary64 values: they are modelled with
    the Standard Library's executable specification [SpecFloat] at
    precision 53 and maximal exponent 1024, rounding to nearest, ties to
    even. *)

From Stdlib Require Import ZArith List Bool String Ascii DecimalString Lia.
From Stdlib Require Import Floats.SpecFloat.
Import ListNotations.
Open Scope Z_scope.

(* ================================================================== *)
(** * Part I: definitions *)
(* ================================================================== *)

(** ** Strings *)

Module Str.

Definition tab : ascii := "009"%char.
Definition newline : ascii := "010"%char.
Definition dquote : ascii := "034"%char.

Definition chr (c : ascii) : string := String c EmptyString.

(** [starts_with p s]: [s.startsWith(p)]. *)
Fixpoint starts_with (p s : string) : bool :=
  match p, s with
  | EmptyString, _ => true
  | String a p', String b s' => Ascii.eqb a b && starts_with p' s'
  | String _ _, EmptyString => false
  end.

(** [includes s sub]: [s.includes(sub)]. *)
Fixpoint includes (s sub : string) : bool :=
  starts_with sub s ||
  match s with
  | EmptyString => false
  | String _ r => includes r sub
  end.

(** [split sep s]: [s.split(sep)] for a one-character separator, the only
    kind the module uses.  The result is never empty. *)
Fixpoint split (sep : ascii) (s : string) : list string :=
  match s with
  | EmptyString => [EmptyString]
  | String c r =>
      if Ascii.eqb c sep then EmptyString :: split sep r
      else match split sep r with
           | x :: xs => String c x :: xs
           | [] => [String c EmptyString]
           end
  end.

(** [first xs]: [xs[0]] of an array that [split] returned. *)
Definition first (xs : list string) : string := hd EmptyString xs.

(** [join sep xs]: [xs.join(sep)]; used only to describe inputs. *)
Fixpoint join (sep : ascii) (xs : list string) : string :=
  match xs with
  | [] => EmptyString
  | [x] => x
  | x :: r => append x (String sep (join sep r))
  end.

(** [mem c s]: the character [c] occurs in [s]. *)
Fixpoint mem (c : ascii) (s : string) : bool :=
  match s with
  | EmptyString => false
  | String a r => Ascii.eqb a c || mem c r
  end.

(** A string or [null]: what the command runner hands back, and what an
    optional device identifier is. *)
Definition nullable := option string.

(** [!v] for a string or [null]: [null] and the empty string are falsy. *)
Definition falsy (v : nullable) : bool :=
  match v with
  | None => true
  | Some s => String.eqb s EmptyString
  end.

(** [ToString] of a string or [null], as a template literal and [parseInt]
    apply it. *)
Definition text (v : nullable) : string :=
  match v with
  | Some s => s
  | None => "null"%string
  end.

End Str.

(** ** Numbers *)

Module Num.

Definition number := spec_float.
Definition prec : Z := 53.
Definition emax : Z := 1024.
Definition NaN : number := S754_nan.

Definition add : number -> number -> number := SFadd prec emax.
Definition sub : number -> number -> number := SFsub prec emax.
Definition mul : number -> number -> number := SFmul prec emax.
Definition div : number -> number -> number := SFdiv prec emax.
Definition leb : number -> number -> bool := SFleb.

(** The number an integer literal or an integer result denotes. *)
Definition of_Z (z : Z) : number := binary_normalize prec emax z 0 false.

(** [Math.round]: the nearest integer, a tie going towards plus infinity;
    zeros, infinities and NaN are returned unchanged, and a negative
    argument that rounds to zero gives minus zero. *)
Definition Math_round (x : number) : number :=
  match x with
  | S754_finite s m e =>
      let n := if 0 <=? e then cond_Zopp s (Zpos m) * 2 ^ e
               else Z.shiftr (cond_Zopp s (Zpos m) + 2 ^ (- e - 1)) (- e) in
      if n =? 0 then S754_zero s else of_Z n
  | _ => x
  end.

(** [Math.max] of two arguments: NaN if either is, and plus zero is larger
    than minus zero. *)
Definition Math_max (x y : number) : number :=
  match SFcompare x y with
  | None => NaN
  | Some Lt => y
  | Some Gt => x
  | Some Eq =>
      match x, y with
      | S754_zero sx, S754_zero sy => S754_zero (sx && sy)
      | _, _ => x
      end
  end.

(** *** [parseInt] without a radix *)

Definition is_space (c : ascii) : bool :=
  let n := Z.of_nat (nat_of_ascii c) in
  ((9 <=? n) && (n <=? 13)) || (n =? 32).

Fixpoint trim_start (s : string) : string :=
  match s with
  | String c r => if is_space c then trim_start r else s
  | EmptyString => s
  end.

Definition digit_of (radix : Z) (c : ascii) : option Z :=
  let n := Z.of_nat (nat_of_ascii c) in
  let v := if (48 <=? n) && (n <=? 57) then n - 48
           else if (97 <=? n) && (n <=? 122) then n - 87
           else if (65 <=? n) && (n <=? 90) then n - 55
           else radix in
  if v <? radix then Some v else None.

(** The value of the longest prefix of digits, [None] when there is none. *)
Fixpoint digits_prefix (radix : Z) (s : string) (acc : option Z) : option Z :=
  match s with
  | String c r =>
      match digit_of radix c with
      | Some v =>
          digits_prefix radix r
            (Some (match acc with Some a => a * radix + v | None => v end))
      | None => acc
      end
  | EmptyString => acc
  end.

(** Leading white space is skipped, a sign and a [0x] prefix are read, then
    the longest run of digits; with no digit the result is NaN.  (White
    space is the ASCII one, which is what the bridge prints.) *)
Definition parseInt (s : string) : number :=
  let s1 := trim_start s in
  let '(neg, s2) :=
    match s1 with
    | String "-" r => (true, r)
    | String "+" r => (false, r)
    | _ => (false, s1)
    end in
  let '(radix, s3) :=
    match s2 with
    | String "0" (String "x" r) => (16, r)
    | String "0" (String "X" r) => (16, r)
    | _ => (10, s2)
    end in
  match digits_prefix radix s3 None with
  | None => NaN
  | Some n => if n =? 0 then S754_zero neg else of_Z (if neg then - n else n)
  end.

(** The integer a number is, when it is one. *)
Definition to_Z (x : number) : option Z :=
  match x with
  | S754_zero _ => Some 0
  | S754_finite s m e =>
      if 0 <=? e then Some (cond_Zopp s (Zpos m) * 2 ^ e)
      else if Zpos m mod 2 ^ (- e) =? 0
           then Some (cond_Zopp s (Zpos m / 2 ^ (- e)))
           else None
  | _ => None
  end.

End Num.

Import Str Num.

(** ** The brightness transform *)

(** [1 - parseInt(brightness) / 255] *)
Definition parseBrightness (brightness : string) : number :=
  sub (of_Z 1) (div (parseInt brightness) (of_Z 255)).

(** [255 - Math.round(brightness * 255)] *)
Definition formatBrightness (brightness : number) : number :=
  sub (of_Z 255) (Math_round (mul brightness (of_Z 255))).

(** ** Effects *)

(** Severity of a log line ([LogLevel] of the utilities module). *)
Inductive level := DEBUG | INFO | WARN | ERROR.

(** What the module does to the outside world, in the order it does it. *)
Inductive event :=
| Exec (cmd : string)                              (* execAsync(cmd) *)
| HttpGet (url : string)                           (* axios.get(url, ...) *)
| Unlink (path : string)                           (* fs.unlinkSync(path) *)
| WriteStream (path : string)                      (* body piped to a file *)
| Log (msg tag : string) (lvl : option level).     (* log(msg, tag, lvl) *)

Definition history := list event.

(** What a [throw] or a rejected promise carries. *)
Inductive exn :=
| Error (msg : string)      (* new Error(msg) *)
| TypeError                 (* a method called on null *)
| AxiosError                (* the request got no response *)
| StreamError.              (* the write stream emitted 'error' *)

Inductive outcome (A : Type) :=
| Returned (a : A)
| Thrown (e : exn).
Arguments Returned {A} a.
Arguments Thrown {A} e.

(** The machine the module runs on and the modules it imports (utilities,
    storage, server, web app): what they return is a field of the host.
    The answers of the outside world may depend on everything done so
    far. *)
Record host := {
  platform : string;                               (* os.platform() *)
  downloadURL : string;                            (* getPlatformADB() *)
  executable : string;                             (* getPlatformADB() *)
  userData : string;                               (* app.getPath('userData') *)
  temp : string;                                   (* app.getPath('temp') *)
  path_join : string -> string -> string;          (* path.join *)
  Number_toString : number -> string;              (* a number in a template *)
  exec_reply : history -> string -> nullable;
  file_exists : history -> string -> bool;         (* fs.existsSync *)
  http_status : history -> string -> option Z;     (* None: no response *)
  stream_finishes : history -> string -> bool;
  webAppDir : string;                              (* getWebAppDir() *)
  socketPassword : string;                         (* getSocketPassword() *)
  serverPort : number                              (* getServerPort() *)
}.

(** A computation: from the history so far to an outcome and the history
    extended by what it did. *)
Definition M (A : Type) : Type := history -> outcome A * history.

Definition ret {A} (a : A) : M A := fun h => (Returned a, h).

Definition throw {A} (e : exn) : M A := fun h => (Thrown e, h).

Definition bind {A B} (m : M A) (k : A -> M B) : M B :=
  fun h =>
    match m h with
    | (Returned a, h') => k a h'
    | (Thrown e, h') => (Thrown e, h')
    end.

Definition emit (e : event) : M unit := fun h => (Returned tt, h ++ [e]).

Declare Scope js_scope.
Delimit Scope js_scope with js.
Notation "x <- m ;; k" := (bind m (fun x => k))
  (at level 61, m at next level, right associativity) : js_scope.
Notation "m ;; k" := (bind m (fun _ => k))
  (at level 61, right associativity) : js_scope.
Notation "s +++ t" := (String.append s t)
  (at level 60, right associativity) : js_scope.
Open Scope js_scope.

(** [for (const x of xs) body(x)] *)
Fixpoint for_of {A} (xs : list A) (body : A -> M unit) : M unit :=
  match xs with
  | [] => ret tt
  | x :: r => body x ;; for_of r body
  end.

(** [lo, lo + 1, ..., lo + n - 1] *)
Fixpoint upto (lo : Z) (n : nat) : list Z :=
  match n with
  | O => []
  | S k => lo :: upto (lo + 1) k
  end.

(** [text] between double quotes. *)
Definition quoted (s : string) : string := chr dquote +++ s +++ chr dquote.

Definition no_device : exn := Error "No valid CarThing found".

Definition sysfs_brightness : string :=
  "/sys/devices/platform/backlight/backlight/aml-bl/brightness".

Section Bridge.

Variable H : host.

(** Modelled from the spec: [execAsync] is imported from the utilities
    module.  By the spec it runs the command line to completion and
    returns the captured text, or a null failure sentinel when the command
    could not be run or exited abnormally; it does not throw, so the
    [.catch(() => null)] of [getAdbExecutable] changes nothing. *)
Definition execAsync (cmd : string) : M nullable :=
  fun h => (Returned (exec_reply H h cmd), h ++ [Exec cmd]).

Definition existsSync (path : string) : M bool :=
  fun h => (Returned (file_exists H h path), h).

Definition unlinkSync (path : string) : M unit := emit (Unlink path).

(** Modelled from the spec: [log] is imported from the utilities module.
    By the spec logging is advisory and decides nothing; a call is
    recorded with its arguments, the level being absent when the caller
    gives none. *)
Definition log (msg tag : string) (lvl : option level) : M unit :=
  emit (Log msg tag lvl).

(** [axios.get(url, { validateStatus: () => true })]: every status is
    returned; only a request without a response rejects. *)
Definition axios_get (url : string) : M Z :=
  fun h =>
    match http_status H h url with
    | Some status => (Returned status, h ++ [HttpGet url])
    | None => (Thrown AxiosError, h ++ [HttpGet url])
    end.

(** The response body piped into a write stream, awaited until 'finish'
    or 'error'. *)
Definition pipe_to_file (path : string) : M unit :=
  fun h =>
    if stream_finishes H h path then (Returned tt, h ++ [WriteStream path])
    else (Thrown StreamError, h ++ [WriteStream path]).

Definition getAdbExecutable : M string :=
  res <- execAsync "adb version" ;;
  if negb (falsy res) && negb (String.eqb (platform H) "darwin") then ret "adb"%string
  else
    let userDataPath := userData H in
    let platformToolsPath := path_join H userDataPath "platform-tools" in
    let adbPath := path_join H platformToolsPath (executable H) in
    cached <- existsSync adbPath ;;
    if cached then ret (quoted adbPath)
    else
      log "Downloading ADB..." "adb" None ;;
      let downloadPath :=
        path_join H (temp H) "platform-tools-glancething-temp.zip" in
      stale <- existsSync downloadPath ;;
      (if stale then unlinkSync downloadPath else ret tt) ;;
      status <- axios_get (downloadURL H) ;;
      if negb (status =? 200) then
        log "Failed to download adb" "adb" (Some ERROR) ;;
        throw (Error "adb_download_failed")
      else
        pipe_to_file downloadPath ;;
        log "Downloaded ADB!" "adb" None ;;
        extract <- execAsync
          ("tar -xf " +++ downloadPath +++ " -C " +++ quoted userDataPath) ;;
        match extract with
        | None =>
            log "Failed to extract adb" "adb" None ;;
            throw (Error "adb_extract_failed")
        | Some _ =>
            log "Extracted ADB!" "adb" None ;;
            ret (quoted adbPath)
        end.

Definition getDevices : M (list string) :=
  adb <- getAdbExecutable ;;
  res <- execAsync (adb +++ " devices") ;;
  match res with
  | None => throw TypeError
  | Some res =>
      ret (map (fun line => first (split tab line))
             (filter (fun line => includes line (String tab "device"))
                (split newline res)))
  end.

Definition checkValidDevice (device : string) : M bool :=
  adb <- getAdbExecutable ;;
  res <- execAsync
    (adb +++ " -s " +++ device +++ " shell ls /usr/share/qt-superbird-app/webapp/") ;;
  match res with
  | None => throw TypeError
  | Some res => ret (includes res "index.html")
  end.

Fixpoint findCarThing_loop (devices : list string) : M nullable :=
  match devices with
  | [] =>
      log "No valid CarThing found" "adb" (Some WARN) ;;
      ret None
  | device :: rest =>
      valid <- checkValidDevice device ;;
      if valid then
        log ("Found CarThing: " +++ device) "adb" None ;;
        ret (Some device)
      else findCarThing_loop rest
  end.

Definition findCarThing : M nullable :=
  log "Finding CarThing..." "adb" (Some DEBUG) ;;
  devices <- getDevices ;;
  findCarThing_loop devices.

Definition restartChromium (device : nullable) : M unit :=
  device <- (if falsy device then findCarThing else ret device) ;;
  if falsy device then throw no_device else
  adb <- getAdbExecutable ;;
  log "Restarting Chromium..." "adb" (Some DEBUG) ;;
  execAsync (adb +++ " -s " +++ text device +++ " shell "
             +++ quoted "supervisorctl restart chromium") ;;
  log "Restarted Chromium!" "adb" None.

Definition setAutoBrightness (device : nullable) (enabled : bool) : M unit :=
  device <- (if falsy device then findCarThing else ret device) ;;
  if falsy device then throw no_device else
  adb <- getAdbExecutable ;;
  execAsync (adb +++ " -s " +++ text device +++ " shell "
             +++ quoted ("supervisorctl " +++ (if enabled then "start" else "stop")
                         +++ " backlight")) ;;
  ret tt.

(** [parse] is [true] when the caller leaves it out. *)
Definition getBrightness (device : nullable) (parse : bool) : M number :=
  device <- (if falsy device then findCarThing else ret device) ;;
  if falsy device then throw no_device else
  adb <- getAdbExecutable ;;
  res <- execAsync (adb +++ " -s " +++ text device +++ " shell "
                    +++ quoted ("cat " +++ sysfs_brightness)) ;;
  ret (if parse then parseBrightness (text res) else parseInt (text res)).

(** The command that writes one raw value to the backlight register. *)
Definition echo_brightness (adb device : string) (value : number) : string :=
  adb +++ " -s " +++ device +++ " shell "
  +++ quoted ("echo " +++ Number_toString H value +++ " > " +++ sysfs_brightness).

Definition setBrightness (device : nullable) (brightness : number) : M unit :=
  device <- (if falsy device then findCarThing else ret device) ;;
  if falsy device then throw no_device else
  adb <- getAdbExecutable ;;
  let formatted := formatBrightness brightness in
  execAsync (echo_brightness adb (text device) formatted) ;;
  ret tt.

Definition steps : Z := 10.

(** [Math.round(currentValue + (targetValue - currentValue) * (i / steps))] *)
Definition ramp_value (currentValue targetValue : number) (i : Z) : number :=
  Math_round
    (add currentValue
       (mul (sub targetValue currentValue) (div (of_Z i) (of_Z steps)))).

Definition setBrightnessSmooth (device : nullable) (brightness : number) : M unit :=
  device <- (if falsy device then findCarThing else ret device) ;;
  if falsy device then throw no_device else
  adb <- getAdbExecutable ;;
  currentValue <- getBrightness device false ;;
  let targetValue := Math_max (formatBrightness brightness) (of_Z 1) in
  for_of (upto 1 (Z.to_nat steps)) (fun i =>
    let value := ramp_value currentValue targetValue i in
    execAsync (echo_brightness adb (text device) value) ;;
    ret tt).

(** [restart] is [true] when the caller leaves it out. *)
Definition restore (device : nullable) (restart : bool) : M unit :=
  device <- (if falsy device then findCarThing else ret device) ;;
  if falsy device then throw no_device else
  adb <- getAdbExecutable ;;
  log "Restoring original app..." "adb" (Some DEBUG) ;;
  execAsync (adb +++ " -s " +++ text device +++ " shell "
             +++ quoted "mountpoint /usr/share/qt-superbird-app/webapp/ > /dev/null && umount /usr/share/qt-superbird-app/webapp") ;;
  execAsync (adb +++ " -s " +++ text device +++ " shell "
             +++ quoted "rm -rf /tmp/webapp") ;;
  log "Restored original app!" "adb" None ;;
  if restart then restartChromium device else ret tt.

Definition installApp (device : nullable) : M unit :=
  device <- (if falsy device then findCarThing else ret device) ;;
  if falsy device then throw no_device else
  let appDir := webAppDir H in
  let WS_PASSWORD := socketPassword H in
  restore device false ;;
  adb <- getAdbExecutable ;;
  log "Installing app..." "adb" (Some DEBUG) ;;
  execAsync (adb +++ " -s " +++ text device +++ " push " +++ appDir +++ " /tmp/webapp") ;;
  execAsync (adb +++ " -s " +++ text device +++ " shell "
             +++ quoted ("echo " +++ WS_PASSWORD +++ " > /tmp/webapp/ws-password")) ;;
  execAsync (adb +++ " -s " +++ text device +++ " shell "
             +++ quoted "touch /tmp/webapp/.glancething") ;;
  execAsync (adb +++ " -s " +++ text device +++ " shell "
             +++ quoted "mount --bind /tmp/webapp /usr/share/qt-superbird-app/webapp") ;;
  log "Installed app!" "adb" None ;;
  restartChromium device.

Definition checkInstalledApp (device : nullable) : M bool :=
  device <- (if falsy device then findCarThing else ret device) ;;
  if falsy device then throw no_device else
  adb <- getAdbExecutable ;;
  res <- execAsync
    (adb +++ " -s " +++ text device
     +++ " shell ls /usr/share/qt-superbird-app/webapp/.glancething") ;;
  match res with
  | None => throw TypeError
  | Some res => ret (negb (includes res "No such file or directory"))
  end.

Definition forwardSocketServer (device : nullable) : M unit :=
  device <- (if falsy device then findCarThing else ret device) ;;
  if falsy device then throw no_device else
  adb <- getAdbExecutable ;;
  let port := serverPort H in
  execAsync (adb +++ " -s " +++ text device +++ " reverse tcp:1337 tcp:"
             +++ Number_toString H port) ;;
  log "Forwarded socket server!" "adb" (Some DEBUG).

End Bridge.

(** ** The public operations, as one family *)

(** Every operation that takes an optional device identifier, with its
    other arguments. *)
Inductive operation :=
| OpSetAutoBrightness (enabled : bool)
| OpGetBrightness (parse : bool)
| OpSetBrightness (brightness : number)
| OpSetBrightnessSmooth (brightness : number)
| OpRestore (restart : bool)
| OpInstallApp
| OpCheckInstalledApp
| OpForwardSocketServer
| OpRestartChromium.

(** A computation run for its effects and its exception only. *)
Definition ignore {A} (m : M A) : M unit := m ;; ret tt.

Definition run (H : host) (op : operation) (device : nullable) : M unit :=
  match op with
  | OpSetAutoBrightness enabled => setAutoBrightness H device enabled
  | OpGetBrightness parse => ignore (getBrightness H device parse)
  | OpSetBrightness brightness => setBrightness H device brightness
  | OpSetBrightnessSmooth brightness => setBrightnessSmooth H device brightness
  | OpRestore restart => restore H device restart
  | OpInstallApp => installApp H device
  | OpCheckInstalledApp => ignore (checkInstalledApp H device)
  | OpForwardSocketServer => forwardSocketServer H device
  | OpRestartChromium => restartChromium H device
  end.

(** The first thing [findCarThing] does; it is how a discovery shows in a
    history. *)
Definition finding : event := Log "Finding CarThing..." "adb" (Some DEBUG).

(** A computation that never starts a discovery and never throws the
    "no device" error. *)
Definition calm {A} (m : M A) : Prop :=
  forall h, exists r evs,
    m h = (r, h ++ evs) /\ r <> Thrown no_device /\ ~ In finding evs.

(** ** Names the statements use *)

(** Where the provisioned executable is installed:
    [<userData>/platform-tools/<executable>]. *)
Definition install_path (H : host) : string :=
  path_join H (path_join H (userData H) "platform-tools") (executable H).

Definition version_cmd : string := "adb version".

Definition devices_cmd (adb : string) : string := adb +++ " devices".

Definition ls_webapp_cmd (adb device : string) : string :=
  adb +++ " -s " +++ device +++ " shell ls /usr/share/qt-superbird-app/webapp/".

Definition ls_marker_cmd (adb device : string) : string :=
  adb +++ " -s " +++ device
  +++ " shell ls /usr/share/qt-superbird-app/webapp/.glancething".

Definition cat_brightness_cmd (adb device : string) : string :=
  adb +++ " -s " +++ device +++ " shell " +++ quoted ("cat " +++ sysfs_brightness).

(** The text [sub] occurs in [s]. *)
Definition occurs (sub s : string) : Prop :=
  exists pre post, s = pre +++ sub +++ post.

(** [listed ls ds]: [ds] are, in order, the texts before the first tab of
    those lines of [ls] in which a tab followed by [device] occurs. *)
Inductive listed : list string -> list string -> Prop :=
| listed_nil : listed [] []
| listed_keep line id rest ls ds :
    line = id +++ String tab rest -> mem tab id = false ->
    occurs (String tab "device") line ->
    listed ls ds -> listed (line :: ls) (id :: ds)
| listed_skip line ls ds :
    ~ occurs (String tab "device") line ->
    listed ls ds -> listed (line :: ls) ds.

(** *** The spec's wording, for comparison *)

(** The device-state field of a listing line: its second tab-separated
    field, when there is one. *)
Definition state_field (line : string) : option string :=
  nth_error (split tab line) 1.

(** The spec's device filter: the lines whose state field is exactly
    [device], each reduced to its leading identifier. *)
Definition listDevices_by_state (output : string) : list string :=
  map (fun line => first (split tab line))
    (filter (fun line =>
               match state_field line with
               | Some st => String.eqb st "device"
               | None => false
               end)
       (split newline output)).

(** The install marker: the empty file [installApp] creates. *)
Definition marker_name : string := ".glancething".

(** ** A scripted host, for concrete runs *)

Fixpoint lookup (k : string) (table : list (string * nullable)) : nullable :=
  match table with
  | [] => None
  | (k', v) :: r => if String.eqb k k' then v else lookup k r
  end.

(** Decimal rendering of the numbers that are integers; [NaN] and the
    infinities as JavaScript prints them. *)
Definition decimal (x : number) : string :=
  match x with
  | S754_nan => "NaN"
  | S754_infinity false => "Infinity"
  | S754_infinity true => "-Infinity"
  | _ => match to_Z x with
         | Some z => NilZero.string_of_int (Z.to_int z)
         | None => "?"
         end
  end%string.

(** A host whose answers do not depend on the history: commands answer by a
    table (a command that is not in it fails), the listed files exist, and
    every download answers [status]. *)
Definition scripted (os : string) (replies : list (string * nullable))
    (files : list string) (status : Z) : host :=
  {| platform := os;
     downloadURL := "https://example.invalid/platform-tools.zip";
     executable := "adb";
     userData := "/data";
     temp := "/tmp";
     path_join := fun a b => a +++ "/" +++ b;
     Number_toString := decimal;
     exec_reply := fun _ cmd => lookup cmd replies;
     file_exists := fun _ p => existsb (String.eqb p) files;
     http_status := fun _ _ => Some status;
     stream_finishes := fun _ _ => true;
     webAppDir := "/app/webapp";
     socketPassword := "secret";
     serverPort := of_Z 1337 |}.

Definition version_banner : nullable := Some "Android Debug Bridge version 1.0.41"%string.

(** *** Concrete listings and hosts *)

Definition line_of (id state : string) : string := id +++ String tab state.

(** The three lines of the spec's example. *)
Definition example_lines : list string :=
  [line_of "X" "device"; line_of "Y" "unauthorized"; line_of "Z" "device"].

(** Lines whose state field is not [device] although a tab followed by
    [device] occurs in them. *)
Definition lenient_lines : list string :=
  [line_of "A" "device"; line_of "B" "devices";
   line_of "C" (line_of "offline" "device")].

(** A Linux host with [adb] on the search path and the given answer to
    [adb devices]. *)
Definition listing_host (lines : list string) : host :=
  scripted "linux"
    [("adb version"%string, version_banner);
     ("adb devices"%string, Some (join newline lines))]
    [] 200.

(** A Linux host with [adb] on the search path and one device [dev] whose
    web-app directory lists as [webapp] and whose marker path lists as
    [marker]. *)
Definition device_host (dev : string) (webapp marker : nullable) : host :=
  scripted "linux"
    [("adb version"%string, version_banner);
     ("adb devices"%string, Some (line_of dev "device"));
     (ls_webapp_cmd "adb" dev, webapp);
     (ls_marker_cmd "adb" dev, marker)]
    [] 200.

(** Some command that starts with [prefix] was run in [h]. *)
Definition ran (prefix : string) (h : history) : bool :=
  existsb (fun e => match e with
                    | Exec cmd => starts_with prefix cmd
                    | _ => false
                    end) h.

(** A host that starts without [adb] and without the provisioned
    executable.  The download answers 200 and the extraction installs the
    executable: the file exists once [tar] has run.  With [adb_later],
    [adb] is on the search path from then on as well (it was installed
    system-wide in the meantime); otherwise it never is. *)
Definition provisioning_host (os : string) (adb_later : bool) : host :=
  {| platform := os;
     downloadURL := "https://example.invalid/platform-tools.zip";
     executable := "adb";
     userData := "/data";
     temp := "/tmp";
     path_join := fun a b => a +++ "/" +++ b;
     Number_toString := decimal;
     exec_reply := fun h cmd =>
       if String.eqb cmd "adb version"
       then (if adb_later && ran "tar -xf" h then version_banner else None)
       else Some EmptyString;
     file_exists := fun h p =>
       String.eqb p "/data/platform-tools/adb" && ran "tar -xf" h;
     http_status := fun _ _ => Some 200;
     stream_finishes := fun _ _ => true;
     webAppDir := "/app/webapp";
     socketPassword := "secret";
     serverPort := of_Z 1337 |}.

(** The first line of every operation: [if (!device) device = await
    findCarThing()]. *)
Definition resolve (H : host) (device : nullable) : M nullable :=
  if falsy device then findCarThing H else ret device.

(** A Linux host with [adb] on the search path whose device [dev] reads
    [raw] back from the backlight register. *)
Definition backlight_host (dev : string) (raw : nullable) : host :=
  scripted "linux"
    [("adb version"%string, version_banner);
     (cat_brightness_cmd "adb" dev, raw)]
    [] 200.

(** The number 0.5. *)
Definition one_half : number := S754_finite false (2 ^ 52) (-53).

(** A Linux host with [adb] on the search path and one CarThing [dev],
    not yet set up, whose backlight register reads [raw]. *)
Definition carthing_host (dev : string) (raw : nullable) : host :=
  scripted "linux"
    [("adb version"%string, version_banner);
     ("adb devices"%string,
      Some (join newline ["List of devices attached"%string; line_of dev "device"]));
     (ls_webapp_cmd "adb" dev, Some "index.html"%string);
     (cat_brightness_cmd "adb" dev, raw)]
    [] 200.

(** The commands of a history that write the backlight register. *)
Definition brightness_writes (h : history) : list string :=
  flat_map (fun e => match e with
                     | Exec cmd => if includes cmd "echo " then [cmd] else []
                     | _ => []
                     end) h.

(** ** Values of numbers

    The value of a finite number is a dyadic rational.  Scaled by
    [2 ^ bias] it is an integer, for every number and every exact product
    of two numbers; rounding is studied on these integers. *)
(** The scale: large enough for the exact product of two numbers, whose
    exponent is at least [2 * -1074]. *)
Definition bias : Z := 2200.

(** [u / 2 ^ n] rounded to the nearest integer, a tie going to the even
    one. *)
Definition rne (u n : Z) : Z :=
  let q := u / 2 ^ n in
  let r := u mod 2 ^ n in
  if 2 * r <? 2 ^ n then q
  else if 2 ^ n <? 2 * r then q + 1
  else if Z.even q then q else q + 1.

(** The exponent, scaled, of the grid on which binary64 holds a value of
    the size of [u]: 53 significant bits, and no finer than the smallest
    subnormal. *)
Definition grid (u : Z) : Z := Z.max (Z.log2 u - 52) (bias - 1074).

(** A nonnegative scaled value rounded to binary64. *)
Definition round_pos (u : Z) : Z := rne u (grid u) * 2 ^ grid u.

(** [u] is on its grid: binary64 holds it exactly. *)
Definition repr (u : Z) : Prop := u mod 2 ^ grid u = 0.

(** The value of a number, scaled by [2 ^ bias] so that it is an integer. *)
Definition sval (x : number) : Z :=
  match x with
  | S754_finite s m e => cond_Zopp s (Zpos m * 2 ^ (e + bias))
  | _ => 0
  end.

(** The sign bit. *)
Definition sign (x : number) : bool :=
  match x with
  | S754_zero s | S754_infinity s | S754_finite s _ _ => s
  | S754_nan => false
  end.

(** Rounding of a signed scaled value. *)
Definition round (u : Z) : Z := Z.sgn u * round_pos (Z.abs u).

(** A zero, or a finite number above the smallest exponent whose value
    is on its own grid. *)
Definition regular (x : number) : Prop :=
  match x with
  | S754_zero _ => True
  | S754_finite _ m e => -1074 <= e /\ repr (Zpos m * 2 ^ (e + bias))
  | _ => False
  end.

(** The integer [Math.round] returns, from the scaled value of its
    argument. *)
Definition half_up (v : Z) : Z := (v + 2 ^ (bias - 1)) / 2 ^ bias.

(** Equality of numbers as data (not the [==] of JavaScript). *)
Definition number_eqb (x y : number) : bool :=
  match x, y with
  | S754_zero a, S754_zero b => Bool.eqb a b
  | S754_infinity a, S754_infinity b => Bool.eqb a b
  | S754_nan, S754_nan => true
  | S754_finite a m e, S754_finite b n f => Bool.eqb a b && Pos.eqb m n && Z.eqb e f
  | _, _ => false
  end.

(** The fraction [i / steps] of the ramp. *)
Definition kstep (i : Z) : number := div (of_Z i) (of_Z steps).

(** The integer the ramp writes at step [i], from the integers [c] and
    [t]: two roundings of scaled values, then the rounding to an
    integer. *)
Definition ramp_int (c t i : Z) : Z :=
  half_up (round (c * 2 ^ bias + round ((t - c) * sval (kstep i)))).


(** * Further properties: definitions *)

(** A computation that returns, whatever the history. *)
Definition succeeds {A} (m : M A) : Prop :=
  forall h, exists a evs, m h = (Returned a, h ++ evs).

(** The bridge resolves to [adb] at every point, by one version check (as
    on a host that keeps [adb] on its search path). *)
Definition fixed_bridge (H : host) (adb : string) : Prop :=
  forall h, getAdbExecutable H h = (Returned adb, h ++ [Exec version_cmd]).

(** The answers to commands do not depend on what was done before. *)
Definition stateless (H : host) : Prop :=
  forall h cmd, exec_reply H h cmd = exec_reply H [] cmd.

(** The command lines of a history, in order. *)
Definition commands (h : history) : list string :=
  flat_map (fun e => match e with Exec cmd => [cmd] | _ => [] end) h.

(** The HTTP requests of a history. *)
Definition requests (h : history) : list string :=
  flat_map (fun e => match e with HttpGet url => [url] | _ => [] end) h.

(** [xs] up to and including its first element that satisfies [p]. *)
Fixpoint through_first {A} (p : A -> bool) (xs : list A) : list A :=
  match xs with
  | [] => []
  | x :: r => if p x then [x] else x :: through_first p r
  end.

(** A candidate is valid on a stateless host when its web-app listing
    holds [index.html]. *)
Definition lists_index_html (H : host) (adb device : string) : bool :=
  match exec_reply H [] (ls_webapp_cmd adb device) with
  | Some res => includes res "index.html"
  | None => false
  end.

(** A script run in the shell of a device:
    [<adb> -s <device> shell "<script>"]. *)
Definition shell (adb device script : string) : string :=
  adb +++ " -s " +++ device +++ " shell " +++ quoted script.

(** The identifiers a listing yields: the pure part of [getDevices]. *)
Definition devices_of (output : string) : list string :=
  map (fun line => first (split tab line))
    (filter (fun line => includes line (String tab "device")) (split newline output)).

(** The last log line of a discovery. *)
Definition discovery_verdict (found : nullable) : event :=
  match found with
  | Some device => Log ("Found CarThing: " +++ device) "adb" None
  | None => Log "No valid CarThing found" "adb" (Some WARN)
  end.

(** *** Further hosts *)

(** A Linux host with [adb] on the search path and three devices: the
    first lists no [index.html], the second does, and the listing of the
    third fails. *)
Definition fleet_host : host :=
  scripted "linux"
    [("adb version"%string, version_banner);
     ("adb devices"%string,
      Some (join newline [line_of "A" "device"; line_of "B" "device";
                          line_of "C" "device"]));
     (ls_webapp_cmd "adb" "A", Some "bin"%string);
     (ls_webapp_cmd "adb" "B", Some "index.html"%string)]
    [] 200.

(** A Linux host without [adb], whose download is refused. *)
Definition offline_host : host := scripted "linux" [] [] 404.


(* ================================================================== *)
(** * Part II: properties *)
(* ================================================================== *)

(** ** Strings *)

Lemma starts_with_spec (p s : string) :
  starts_with p s = true <-> exists r, s = p +++ r.
Proof.
  revert s; induction p as [|a p IH]; intros s; simpl.
  - split; [intros _; now exists s | reflexivity].
  - destruct s as [|b s].
    + split; [discriminate | intros [r Hr]; discriminate].
    + rewrite andb_true_iff, Ascii.eqb_eq, IH. split.
      * intros [-> [r ->]]. now exists r.
      * intros [r Hr]. injection Hr as -> ->. split; [reflexivity | now exists r].
Qed.

Lemma includes_spec (s sub : string) :
  includes s sub = true <-> occurs sub s.
Proof.
  unfold occurs. induction s as [|c s IH].
  - simpl. rewrite orb_false_r, starts_with_spec. split.
    + intros [r Hr]. now exists EmptyString, r.
    + intros [[|x pre] [post Hs]]; [now exists post | discriminate].
  - cbn [includes]. rewrite orb_true_iff, starts_with_spec, IH. split.
    + intros [[r Hr] | (pre & post & Hs)].
      * now exists EmptyString, r.
      * exists (String c pre), post. simpl. now rewrite Hs.
    + intros [[|x pre] [post Hs]].
      * left. now exists post.
      * right. simpl in Hs. injection Hs as -> Hs. now exists pre, post.
Qed.

Lemma includes_false (s sub : string) :
  includes s sub = false <-> ~ occurs sub s.
Proof.
  rewrite <- includes_spec. destruct (includes s sub); split; congruence.
Qed.

Lemma split_nonempty (sep : ascii) (s : string) : split sep s <> [].
Proof.
  induction s as [|c s IH]; simpl; [discriminate|].
  destruct (Ascii.eqb c sep); [discriminate|].
  destruct (split sep s); discriminate.
Qed.

(** A string without the separator is one field. *)
Lemma split_plain (sep : ascii) (s : string) :
  mem sep s = false -> split sep s = [s].
Proof.
  induction s as [|c s IH]; simpl; [reflexivity|].
  rewrite orb_false_iff. intros [Hc Hs].
  rewrite Hc, (IH Hs). reflexivity.
Qed.

(** The first field ends at the first separator. *)
Lemma split_cons (sep : ascii) (x r : string) :
  mem sep x = false -> split sep (x +++ String sep r) = x :: split sep r.
Proof.
  induction x as [|c x IH]; simpl.
  - intros _. now rewrite Ascii.eqb_refl.
  - rewrite orb_false_iff. intros [Hc Hx].
    rewrite Hc, (IH Hx). reflexivity.
Qed.

(** [split] undoes [join] on fields that do not hold the separator. *)
Lemma split_join (sep : ascii) (xs : list string) :
  xs <> [] -> Forall (fun x => mem sep x = false) xs ->
  split sep (join sep xs) = xs.
Proof.
  induction xs as [|x r IH]; [congruence|].
  intros _ Hall. inversion Hall as [|? ? Hx Hr]; subst.
  destruct r as [|y r].
  - simpl. now apply split_plain.
  - change (join sep (x :: y :: r)) with (x +++ String sep (join sep (y :: r))).
    rewrite split_cons by assumption.
    rewrite IH; [reflexivity | discriminate | assumption].
Qed.

(** A string that holds [c] is cut at the first [c]. *)
Lemma cut_at (c : ascii) (s : string) :
  mem c s = true ->
  exists id rest, s = id +++ String c rest /\ mem c id = false.
Proof.
  induction s as [|a s IH]; simpl; [discriminate|].
  destruct (Ascii.eqb a c) eqn:Ha.
  - intros _. apply Ascii.eqb_eq in Ha. subst a.
    now exists EmptyString, s.
  - simpl. intros Hs. destruct (IH Hs) as (id & rest & -> & Hid).
    exists (String a id), rest. simpl. now rewrite Ha, Hid.
Qed.

Lemma mem_append (c : ascii) (a b : string) :
  mem c (a +++ b) = mem c a || mem c b.
Proof.
  induction a as [|x a IH]; simpl; [reflexivity|].
  now rewrite IH, orb_assoc.
Qed.

Lemma first_split_cut (sep : ascii) (id rest : string) :
  mem sep id = false -> first (split sep (id +++ String sep rest)) = id.
Proof. intros Hid. now rewrite split_cons. Qed.

(** The filter and the projection of [getDevices], line by line. *)
Lemma listed_filter_map (ls : list string) :
  listed ls
    (map (fun line => first (split tab line))
       (filter (fun line => includes line (String tab "device")) ls)).
Proof.
  induction ls as [|line ls IH]; simpl; [constructor|].
  destruct (includes line (String tab "device")) eqn:Hinc.
  - apply includes_spec in Hinc.
    assert (Hmem : mem tab line = true).
    { destruct Hinc as (pre & post & ->).
      rewrite mem_append. simpl. apply orb_true_r. }
    destruct (cut_at _ _ Hmem) as (id & rest & Hline & Hid).
    cbn [map].
    replace (first (split tab line)) with id
      by (rewrite Hline; symmetry; now apply first_split_cut).
    now apply listed_keep with (rest := rest).
  - apply includes_false in Hinc. now apply listed_skip.
Qed.

(** [listed] determines its second argument. *)
Lemma listed_functional (ls ds ds' : list string) :
  listed ls ds -> listed ls ds' -> ds = ds'.
Proof.
  intros Hl; revert ds'.
  induction Hl as [| line id rest ls ds Hline Hid Hocc Hl IH
                   | line ls ds Hno Hl IH]; intros ds' Hl'.
  - now inversion Hl'.
  - inversion Hl' as [| line' id' rest' ls' ds0 Hline' Hid' Hocc' Hl0
                      | line' ls' ds0 Hno' Hl0]; subst.
    + assert (id = id') as <-.
      { apply (f_equal (fun s => first (split tab s))) in Hline'.
        now rewrite !first_split_cut in Hline' by assumption. }
      f_equal. now apply IH.
    + contradiction.
  - inversion Hl' as [| line' id' rest' ls' ds0 Hline' Hid' Hocc' Hl0
                      | line' ls' ds0 Hno' Hl0]; subst.
    + contradiction.
    + now apply IH.
Qed.

(** Before its first tab a line holds no tab followed by [device]. *)
Lemma includes_past_id (id rest sub : string) :
  mem tab id = false ->
  includes (id +++ rest) (String tab sub) = includes rest (String tab sub).
Proof.
  induction id as [|c id IH]; cbn [append mem]; [reflexivity |].
  rewrite orb_false_iff. intros [Hc Hid].
  cbn [includes starts_with]. rewrite Ascii.eqb_sym, Hc. cbn [andb orb].
  now apply IH.
Qed.

(** Lines in the states the bridge calls [unauthorized] and [offline], and
    lines without a state, are not kept. *)
Lemma other_states_not_kept (id : string) :
  mem tab id = false ->
  ~ occurs (String tab "device") (line_of id "unauthorized") /\
  ~ occurs (String tab "device") (line_of id "offline") /\
  ~ occurs (String tab "device") id.
Proof.
  intros Hid. repeat split; apply includes_false.
  - unfold line_of. now rewrite includes_past_id.
  - unfold line_of. now rewrite includes_past_id.
  - induction id as [|c id IH]; [reflexivity |].
    cbn [mem] in Hid. apply orb_false_iff in Hid. destruct Hid as [Hc Hid].
    cbn [includes starts_with]. rewrite Ascii.eqb_sym, Hc. cbn [andb orb].
    now apply IH.
Qed.

(** ** The monad *)

Lemma bind_ret {A B} (a : A) (k : A -> M B) : bind (ret a) k = k a.
Proof. reflexivity. Qed.

Lemma bind_returned {A B} (m : M A) (k : A -> M B) h a h' :
  m h = (Returned a, h') -> bind m k h = k a h'.
Proof. unfold bind. now intros ->. Qed.

Lemma bind_thrown {A B} (m : M A) (k : A -> M B) h e h' :
  m h = (Thrown e, h') -> bind m k h = (Thrown e, h').
Proof. unfold bind. now intros ->. Qed.

(** ** Resolving the bridge executable *)

(** The first steps of [getAdbExecutable], up to the cache test. *)
Lemma getAdbExecutable_fast (H : host) (h : history) :
  falsy (exec_reply H h version_cmd) = false ->
  String.eqb (platform H) "darwin" = false ->
  getAdbExecutable H h = (Returned "adb"%string, h ++ [Exec version_cmd]).
Proof.
  intros Hres Hos. unfold getAdbExecutable, bind, execAsync, version_cmd in *.
  now rewrite Hres, Hos.
Qed.

Lemma getAdbExecutable_cached (H : host) (h : history) :
  falsy (exec_reply H h version_cmd) = true \/ String.eqb (platform H) "darwin" = true ->
  file_exists H (h ++ [Exec version_cmd]) (install_path H) = true ->
  getAdbExecutable H h = (Returned (quoted (install_path H)), h ++ [Exec version_cmd]).
Proof.
  intros Hslow Hfile.
  unfold getAdbExecutable, bind, execAsync, existsSync, install_path, version_cmd in *.
  assert (Hc : negb (falsy (exec_reply H h "adb version"))
               && negb (String.eqb (platform H) "darwin") = false).
  { destruct Hslow as [-> | ->]; [reflexivity | apply andb_false_r]. }
  now rewrite Hc, Hfile.
Qed.

(** ** Calm computations *)

Section Calm.

Variable H : host.

Lemma calm_ret {A} (a : A) : calm (ret a).
Proof.
  intros h. exists (Returned a), []. rewrite app_nil_r.
  repeat split; [discriminate | intros []].
Qed.

Lemma calm_throw {A} (e : exn) : e <> no_device -> calm (@throw A e).
Proof.
  intros He h. exists (Thrown e), []. rewrite app_nil_r.
  repeat split; [congruence | intros []].
Qed.

Lemma calm_bind {A B} (m : M A) (k : A -> M B) :
  calm m -> (forall a, calm (k a)) -> calm (bind m k).
Proof.
  intros Hm Hk h. destruct (Hm h) as (r & evs & Hr & Hne & Hnin).
  unfold bind. rewrite Hr. destruct r as [a|e].
  - destruct (Hk a (h ++ evs)) as (r' & evs' & Hr' & Hne' & Hnin').
    exists r', (evs ++ evs'). rewrite Hr', app_assoc.
    repeat split; [assumption|]. rewrite in_app_iff. tauto.
  - exists (Thrown e), evs. repeat split; [congruence | assumption].
Qed.

Lemma calm_if {A} (b : bool) (m1 m2 : M A) :
  calm m1 -> calm m2 -> calm (if b then m1 else m2).
Proof. now destruct b. Qed.

Lemma calm_emit (e : event) : e <> finding -> calm (emit e).
Proof.
  intros He h. exists (Returned tt), [e].
  repeat split; [discriminate | intros [Hin | []]; congruence].
Qed.

Lemma calm_log (msg tag : string) (lvl : option level) :
  msg <> "Finding CarThing..."%string -> calm (log msg tag lvl).
Proof. intros Hm. apply calm_emit. unfold finding. congruence. Qed.

Lemma calm_unlinkSync (path : string) : calm (unlinkSync path).
Proof. apply calm_emit. discriminate. Qed.

Lemma calm_execAsync (cmd : string) : calm (execAsync H cmd).
Proof.
  intros h. exists (Returned (exec_reply H h cmd)), [Exec cmd].
  repeat split; [discriminate | intros [Hin | []]; discriminate].
Qed.

Lemma calm_existsSync (path : string) : calm (existsSync H path).
Proof.
  intros h. exists (Returned (file_exists H h path)), []. rewrite app_nil_r.
  repeat split; [discriminate | intros []].
Qed.

Lemma calm_axios_get (url : string) : calm (axios_get H url).
Proof.
  intros h. unfold axios_get. destruct (http_status H h url) as [st|].
  - exists (Returned st), [HttpGet url].
    repeat split; [discriminate | intros [Hin | []]; discriminate].
  - exists (Thrown AxiosError), [HttpGet url].
    repeat split; [discriminate | intros [Hin | []]; discriminate].
Qed.

Lemma calm_pipe_to_file (path : string) : calm (pipe_to_file H path).
Proof.
  intros h. unfold pipe_to_file. destruct (stream_finishes H h path).
  - exists (Returned tt), [WriteStream path].
    repeat split; [discriminate | intros [Hin | []]; discriminate].
  - exists (Thrown StreamError), [WriteStream path].
    repeat split; [discriminate | intros [Hin | []]; discriminate].
Qed.

Lemma calm_for_of {A} (xs : list A) (body : A -> M unit) :
  (forall x, calm (body x)) -> calm (for_of xs body).
Proof.
  intros Hbody. induction xs as [|x r IH]; simpl.
  - apply calm_ret.
  - apply calm_bind; [apply Hbody | intros _; exact IH].
Qed.

End Calm.

Create HintDb calm.

(** Breaks a computation into its steps and settles each. *)
Ltac calm_steps :=
  repeat match goal with
    | |- calm (bind _ _) => apply calm_bind; [| intro]
    | |- calm (if _ then _ else _) => apply calm_if
    | |- calm (for_of _ _) => apply calm_for_of; intro
    | |- calm (log _ _ _) => apply calm_log; discriminate
    | |- calm (throw _) => apply calm_throw; discriminate
    | |- calm (match ?x with Some _ => _ | None => _ end) => destruct x
    | |- calm (ret _) => apply calm_ret
    | |- calm (execAsync _ _) => apply calm_execAsync
    | |- calm (existsSync _ _) => apply calm_existsSync
    | |- calm (unlinkSync _) => apply calm_unlinkSync
    | |- calm (axios_get _ _) => apply calm_axios_get
    | |- calm (pipe_to_file _ _) => apply calm_pipe_to_file
    | |- calm (getAdbExecutable _) => solve [auto with calm]
    end.

Lemma calm_getAdbExecutable (H : host) : calm (getAdbExecutable H).
Proof. unfold getAdbExecutable. calm_steps. Qed.

#[export] Hint Resolve calm_getAdbExecutable : calm.

(** With an identifier that is not falsy, the two opening lines of an
    operation fall through to its body. *)
Ltac given_device Hf :=
  rewrite Hf; rewrite bind_ret; cbv beta; rewrite Hf.

Lemma calm_restartChromium (H : host) (device : nullable) :
  falsy device = false -> calm (restartChromium H device).
Proof. intros Hf. unfold restartChromium. given_device Hf. calm_steps. Qed.

Lemma calm_getBrightness (H : host) (device : nullable) (parse : bool) :
  falsy device = false -> calm (getBrightness H device parse).
Proof. intros Hf. unfold getBrightness. given_device Hf. calm_steps. Qed.

Lemma calm_restore (H : host) (device : nullable) (restart : bool) :
  falsy device = false -> calm (restore H device restart).
Proof.
  intros Hf. unfold restore. given_device Hf. calm_steps.
  now apply calm_restartChromium.
Qed.

Lemma calm_run (H : host) (op : operation) (device : nullable) :
  falsy device = false -> calm (run H op device).
Proof.
  intros Hf. destruct op; cbn [run]; unfold ignore.
  - unfold setAutoBrightness. given_device Hf. calm_steps.
  - apply calm_bind; [now apply calm_getBrightness | intro; apply calm_ret].
  - unfold setBrightness. given_device Hf. calm_steps.
  - unfold setBrightnessSmooth. given_device Hf. calm_steps.
    now apply calm_getBrightness.
  - now apply calm_restore.
  - unfold installApp. given_device Hf. calm_steps.
    + now apply calm_restore.
    + now apply calm_restartChromium.
  - unfold checkInstalledApp. given_device Hf. calm_steps.
  - unfold forwardSocketServer. given_device Hf. calm_steps.
  - now apply calm_restartChromium.
Qed.

(** Without an identifier the two opening lines are a discovery; when it
    finds a device the operation goes on as if it had been given it. *)
Lemma opening_discovers {A} (H : host) (body : nullable -> M A)
    (device : nullable) (h : history) :
  falsy device = true ->
  (device <- (if falsy device then findCarThing H else ret device) ;;
   if falsy device then throw no_device else body device) h =
    match findCarThing H h with
    | (Thrown e, h') => (Thrown e, h')
    | (Returned found, h') =>
        if falsy found then (Thrown no_device, h')
        else (device <- (if falsy found then findCarThing H else ret found) ;;
              if falsy device then throw no_device else body device) h'
    end.
Proof.
  intros Hf. rewrite Hf. unfold bind at 1.
  destruct (findCarThing H h) as [[found|e] h']; [| reflexivity].
  destruct (falsy found) eqn:Hfound; [reflexivity |].
  unfold bind, ret. now rewrite Hfound.
Qed.

Lemma ignore_discovers {A} (H : host) (m : nullable -> M A)
    (device : nullable) (h : history) :
  (forall device h, falsy device = true ->
     m device h =
       match findCarThing H h with
       | (Thrown e, h') => (Thrown e, h')
       | (Returned found, h') =>
           if falsy found then (Thrown no_device, h') else m found h'
       end) ->
  falsy device = true ->
  ignore (m device) h =
    match findCarThing H h with
    | (Thrown e, h') => (Thrown e, h')
    | (Returned found, h') =>
        if falsy found then (Thrown no_device, h') else ignore (m found) h'
    end.
Proof.
  intros Hm Hf. unfold ignore, bind. rewrite (Hm device h Hf).
  destruct (findCarThing H h) as [[found|e] h']; [| reflexivity].
  now destruct (falsy found).
Qed.

Lemma run_discovers (H : host) (op : operation) (device : nullable) (h : history) :
  falsy device = true ->
  run H op device h =
    match findCarThing H h with
    | (Thrown e, h') => (Thrown e, h')
    | (Returned found, h') =>
        if falsy found then (Thrown no_device, h') else run H op found h'
    end.
Proof.
  intros Hf. destruct op; cbn [run].
  - now apply opening_discovers.
  - apply (ignore_discovers H (fun d => getBrightness H d parse)); [| assumption].
    intros d h0 Hd. now apply opening_discovers.
  - now apply opening_discovers.
  - now apply opening_discovers.
  - now apply opening_discovers.
  - now apply opening_discovers.
  - apply (ignore_discovers H (checkInstalledApp H)); [| assumption].
    intros d h0 Hd. now apply opening_discovers.
  - now apply opening_discovers.
  - now apply opening_discovers.
Qed.

(** ** Discovery *)

Lemma calm_getDevices (H : host) : calm (getDevices H).
Proof. unfold getDevices. calm_steps. Qed.

Lemma calm_checkValidDevice (H : host) (device : string) :
  calm (checkValidDevice H device).
Proof. unfold checkValidDevice. calm_steps. Qed.

Lemma calm_findCarThing_loop (H : host) (devices : list string) :
  calm (findCarThing_loop H devices).
Proof.
  induction devices as [|device rest IH]; cbn [findCarThing_loop].
  - calm_steps.
  - apply calm_bind; [apply calm_checkValidDevice | intros valid].
    destruct valid; [| exact IH]. calm_steps.
Qed.

(** A discovery starts with its log line, then lists and validates; it
    never throws the "no device" error itself. *)
Lemma findCarThing_trace (H : host) (h : history) :
  exists r evs,
    findCarThing H h = (r, h ++ finding :: evs) /\ r <> Thrown no_device.
Proof.
  assert (Hc : calm (devices <- getDevices H ;; findCarThing_loop H devices)).
  { apply calm_bind; [apply calm_getDevices | intro; apply calm_findCarThing_loop]. }
  destruct (Hc (h ++ [finding])) as (r & evs & Hr & Hne & _).
  exists r, evs. split; [| assumption].
  unfold findCarThing, bind at 1, log, emit. fold finding.
  rewrite Hr, <- app_assoc. reflexivity.
Qed.

Lemma getDevices_listing (H : host) (h h1 : history) (adb out : string) :
  getAdbExecutable H h = (Returned adb, h1) ->
  exec_reply H h1 (devices_cmd adb) = Some out ->
  getDevices H h =
    (Returned (map (fun line => first (split tab line))
                 (filter (fun line => includes line (String tab "device"))
                    (split newline out))),
     h1 ++ [Exec (devices_cmd adb)]).
Proof.
  intros Hadb Hout. unfold getDevices.
  rewrite (bind_returned _ _ _ _ _ Hadb).
  unfold bind, execAsync. fold (devices_cmd adb). now rewrite Hout.
Qed.

Lemma getDevices_failure (H : host) (h h1 : history) (adb : string) :
  getAdbExecutable H h = (Returned adb, h1) ->
  exec_reply H h1 (devices_cmd adb) = None ->
  getDevices H h = (Thrown TypeError, h1 ++ [Exec (devices_cmd adb)]).
Proof.
  intros Hadb Hout. unfold getDevices.
  rewrite (bind_returned _ _ _ _ _ Hadb).
  unfold bind, execAsync. fold (devices_cmd adb). now rewrite Hout.
Qed.

(** What [getDevices] returned, it returned after a listing that
    succeeded. *)
Lemma getDevices_returned (H : host) (h h' : history) (ds : list string) :
  getDevices H h = (Returned ds, h') ->
  exists adb h1 out,
    getAdbExecutable H h = (Returned adb, h1) /\
    exec_reply H h1 (devices_cmd adb) = Some out.
Proof.
  unfold getDevices, bind at 1.
  destruct (getAdbExecutable H h) as [[adb|e] h1]; [| discriminate].
  unfold bind, execAsync. fold (devices_cmd adb).
  destruct (exec_reply H h1 (devices_cmd adb)) as [out|] eqn:Hout; [| discriminate].
  intros _. now exists adb, h1, out.
Qed.

Lemma checkValidDevice_listing (H : host) (h h1 : history) (adb device res : string) :
  getAdbExecutable H h = (Returned adb, h1) ->
  exec_reply H h1 (ls_webapp_cmd adb device) = Some res ->
  checkValidDevice H device h =
    (Returned (includes res "index.html"), h1 ++ [Exec (ls_webapp_cmd adb device)]).
Proof.
  intros Hadb Hout. unfold checkValidDevice.
  rewrite (bind_returned _ _ _ _ _ Hadb).
  unfold bind, execAsync. fold (ls_webapp_cmd adb device). now rewrite Hout.
Qed.

(** ** Binary64 arithmetic on scaled values

    The operations of [SpecFloat] shift, round and renormalize mantissas.
    This part shows what they compute on values: the exact result rounded
    by [round], which is monotone and leaves integers below [2 ^ 53]
    unchanged.  The ramp and the target are then reasoned about on
    integers. *)

(** *** Division by a power of two, to the nearest, ties to even *)

Lemma pow2_pos n : 0 <= n -> 0 < 2 ^ n.
Proof. intros. apply Z.pow_pos_nonneg; lia. Qed.

Lemma rne_bounds u n : 0 <= n -> u / 2 ^ n <= rne u n <= u / 2 ^ n + 1.
Proof.
  intros Hn. unfold rne.
  destruct (2 * (u mod 2 ^ n) <? 2 ^ n); [lia|].
  destruct (2 ^ n <? 2 * (u mod 2 ^ n)); [lia|].
  destruct (Z.even (u / 2 ^ n)); lia.
Qed.

(** On a fixed grid, rounding is monotone. *)
Lemma rne_mono u v n : 0 <= n -> u <= v -> rne u n <= rne v n.
Proof.
  intros Hn Huv. pose proof (pow2_pos n Hn) as HP.
  pose proof (Z.div_le_mono u v (2 ^ n) HP Huv) as Hq.
  destruct (Z.eq_dec (u / 2 ^ n) (v / 2 ^ n)) as [Heq | Hneq].
  - pose proof (Z.div_mod u (2 ^ n)) as Hu.
    pose proof (Z.div_mod v (2 ^ n)) as Hv.
    unfold rne. rewrite <- Heq in *.
    set (q := u / 2 ^ n) in *.
    assert (Hr : u mod 2 ^ n <= v mod 2 ^ n) by lia.
    destruct (Z.ltb_spec (2 * (u mod 2 ^ n)) (2 ^ n));
      destruct (Z.ltb_spec (2 * (v mod 2 ^ n)) (2 ^ n));
      destruct (Z.ltb_spec (2 ^ n) (2 * (u mod 2 ^ n)));
      destruct (Z.ltb_spec (2 ^ n) (2 * (v mod 2 ^ n)));
      destruct (Z.even q); lia.
  - pose proof (rne_bounds u n Hn). pose proof (rne_bounds v n Hn). lia.
Qed.

Lemma rne_exact k n : 0 <= n -> rne (k * 2 ^ n) n = k.
Proof.
  intros Hn. pose proof (pow2_pos n Hn) as HP. unfold rne.
  rewrite Z.div_mul, Z.mod_mul by lia.
  destruct (Z.ltb_spec (2 * 0) (2 ^ n)); lia.
Qed.

(** Rounding does not depend on the scale of its argument. *)
Lemma rne_scale u n k : 0 <= n -> 0 <= k -> rne (u * 2 ^ k) (n + k) = rne u n.
Proof.
  intros Hn Hk. pose proof (pow2_pos n Hn) as HP. pose proof (pow2_pos k Hk) as HK.
  unfold rne. rewrite Z.pow_add_r by lia.
  rewrite Z.div_mul_cancel_r, Z.mul_mod_distr_r by lia.
  set (r := u mod 2 ^ n).
  assert (H1 : (2 * (r * 2 ^ k) <? 2 ^ n * 2 ^ k) = (2 * r <? 2 ^ n)).
  { destruct (Z.ltb_spec (2 * r) (2 ^ n)); [apply Z.ltb_lt | apply Z.ltb_ge]; nia. }
  assert (H2 : (2 ^ n * 2 ^ k <? 2 * (r * 2 ^ k)) = (2 ^ n <? 2 * r)).
  { destruct (Z.ltb_spec (2 ^ n) (2 * r)); [apply Z.ltb_lt | apply Z.ltb_ge]; nia. }
  now rewrite H1, H2.
Qed.

Lemma rne_zero n : rne 0 n = 0.
Proof.
  unfold rne. rewrite Zdiv_0_l, Zmod_0_l.
  destruct (Z.ltb_spec (2 * 0) (2 ^ n)); [reflexivity|].
  destruct (Z.ltb_spec (2 ^ n) (2 * 0)); [| reflexivity].
  lia.
Qed.

(** *** Rounding to the grid of a value *)

Lemma grid_nonneg u : 0 <= grid u.
Proof. unfold grid, bias. lia. Qed.

Lemma grid_mono u v : u <= v -> grid u <= grid v.
Proof.
  intros Huv. unfold grid. pose proof (Z.log2_le_mono u v Huv). lia.
Qed.

Lemma round_pos_zero : round_pos 0 = 0.
Proof. unfold round_pos. now rewrite rne_zero. Qed.

Lemma round_pos_nonneg u : 0 <= u -> 0 <= round_pos u.
Proof.
  intros Hu. unfold round_pos. pose proof (grid_nonneg u) as Hg.
  pose proof (pow2_pos _ Hg). pose proof (rne_bounds u _ Hg).
  pose proof (Z.div_pos u (2 ^ grid u) Hu ltac:(lia)). nia.
Qed.

Lemma rne_divisible u n : 0 <= n -> u mod 2 ^ n = 0 -> rne u n = u / 2 ^ n.
Proof.
  intros Hn Hr. pose proof (pow2_pos n Hn). unfold rne. rewrite Hr.
  destruct (Z.ltb_spec (2 * 0) (2 ^ n)); [reflexivity | lia].
Qed.

(** A value on its grid is not changed. *)
Lemma round_pos_repr u : repr u -> round_pos u = u.
Proof.
  unfold repr, round_pos. intros Hr. pose proof (grid_nonneg u) as Hg.
  pose proof (pow2_pos _ Hg) as HP.
  rewrite rne_divisible by assumption.
  pose proof (Z.div_mod u (2 ^ grid u)). lia.
Qed.

Lemma mul_pow2_repr q g g' : 0 <= g' <= g -> (q * 2 ^ g) mod 2 ^ g' = 0.
Proof.
  intros Hg. replace g with ((g - g') + g') by lia.
  rewrite Z.pow_add_r, Z.mul_assoc by lia.
  apply Z.mod_mul. pose proof (pow2_pos g'). lia.
Qed.

(** Rounding is monotone across grids too: between two values on
    different grids lies a power of two that is on both. *)
Lemma round_pos_mono u v : 0 <= u -> u <= v -> round_pos u <= round_pos v.
Proof.
  intros Hu Huv.
  destruct (Z.eq_dec u 0) as [-> | Hu0].
  { rewrite round_pos_zero. apply round_pos_nonneg. lia. }
  pose proof (grid_mono u v Huv) as Hg.
  pose proof (grid_nonneg u) as Hgu. pose proof (grid_nonneg v) as Hgv.
  destruct (Z.eq_dec (grid u) (grid v)) as [Heq | Hneq].
  - unfold round_pos. rewrite <- Heq.
    pose proof (rne_mono u v (grid u) Hgu Huv). pose proof (pow2_pos _ Hgu). nia.
  - assert (Hlt : grid u < grid v) by lia.
    assert (Hgv' : grid v = Z.log2 v - 52) by (unfold grid in *; lia).
    assert (Hlog : Z.log2 u < Z.log2 v) by (unfold grid in *; lia).
    pose proof (Z.log2_spec u ltac:(lia)) as [_ Hu2].
    pose proof (Z.log2_spec v ltac:(lia)) as [Hv1 _].
    pose proof (Z.log2_nonneg v) as Hlv.
    assert (HuB : u <= 2 ^ Z.log2 v).
    { assert (2 ^ Z.succ (Z.log2 u) <= 2 ^ Z.log2 v)
        by (apply Z.pow_le_mono_r; lia). lia. }
    transitivity (2 ^ Z.log2 v).
    + unfold round_pos.
      pose proof (rne_mono u (2 ^ Z.log2 v) (grid u) Hgu HuB) as Hm.
      replace (2 ^ Z.log2 v) with (2 ^ (Z.log2 v - grid u) * 2 ^ grid u) in Hm at 1
        by (rewrite <- Z.pow_add_r by lia; f_equal; lia).
      rewrite rne_exact in Hm by assumption.
      replace (2 ^ Z.log2 v) with (2 ^ (Z.log2 v - grid u) * 2 ^ grid u)
        by (rewrite <- Z.pow_add_r by lia; f_equal; lia).
      pose proof (pow2_pos _ Hgu). nia.
    + unfold round_pos.
      pose proof (rne_mono (2 ^ Z.log2 v) v (grid v) Hgv Hv1) as Hm.
      replace (2 ^ Z.log2 v) with (2 ^ (Z.log2 v - grid v) * 2 ^ grid v) in Hm at 1
        by (rewrite <- Z.pow_add_r by lia; f_equal; lia).
      rewrite rne_exact in Hm by assumption.
      replace (2 ^ Z.log2 v) with (2 ^ (Z.log2 v - grid v) * 2 ^ grid v) at 1
        by (rewrite <- Z.pow_add_r by lia; f_equal; lia).
      pose proof (pow2_pos _ Hgv). nia.
Qed.

Lemma rne_le_pow53 u : 0 < u -> rne u (grid u) <= 2 ^ 53.
Proof.
  intros Hu. pose proof (grid_nonneg u) as Hg.
  pose proof (rne_bounds u _ Hg) as [_ Hb].
  pose proof (Z.log2_spec u Hu) as [_ Hu2].
  assert (Hlt : u < 2 ^ (53 + grid u)).
  { eapply Z.lt_le_trans; [exact Hu2|]. apply Z.pow_le_mono_r; unfold grid; lia. }
  rewrite Z.pow_add_r in Hlt by lia.
  pose proof (pow2_pos _ Hg).
  assert (u / 2 ^ grid u < 2 ^ 53) by (apply Z.div_lt_upper_bound; lia).
  lia.
Qed.

(** A rounded value is on its grid, also when rounding carried it to the
    next power of two. *)
Lemma round_pos_is_repr u : 0 <= u -> repr (round_pos u).
Proof.
  intros Hu. unfold repr.
  destruct (Z.eq_dec u 0) as [-> | Hu0].
  { rewrite round_pos_zero. apply Zmod_0_l. }
  pose proof (grid_nonneg u) as Hg.
  pose proof (rne_le_pow53 u ltac:(lia)) as Hq53.
  pose proof (rne_bounds u _ Hg) as [Hq0 _].
  pose proof (pow2_pos _ Hg) as HP.
  pose proof (Z.div_pos u (2 ^ grid u) Hu HP) as Hd.
  unfold round_pos at 1. set (q := rne u (grid u)) in *.
  destruct (Z.eq_dec q 0) as [Hq | Hq].
  { unfold round_pos. fold q. rewrite Hq. apply Zmod_0_l. }
  assert (Hlog : Z.log2 (round_pos u) = Z.log2 q + grid u).
  { unfold round_pos. fold q. rewrite Z.log2_mul_pow2 by lia. lia. }
  destruct (Z.eq_dec q (2 ^ 53)) as [Hq' | Hq'].
  - assert (Hgr : grid (round_pos u) = grid u + 1).
    { unfold grid at 1. rewrite Hlog, Hq', Z.log2_pow2 by lia. unfold grid. lia. }
    rewrite Hgr, Hq'. replace (2 ^ 53) with (2 ^ 52 * 2 ^ 1) by reflexivity.
    rewrite <- Z.mul_assoc, <- Z.pow_add_r by lia.
    replace (1 + grid u) with (grid u + 1) by lia.
    apply Z.mod_mul. pose proof (pow2_pos (grid u + 1)). lia.
  - apply mul_pow2_repr. split; [apply grid_nonneg|].
    assert (Z.log2 q < 53) by (apply Z.log2_lt_pow2; lia).
    unfold grid at 1. rewrite Hlog. unfold grid. lia.
Qed.

(** Integers below [2 ^ 53] are on their grid. *)
Lemma int_repr z : 0 <= z < 2 ^ 53 -> repr (z * 2 ^ bias).
Proof.
  intros Hz. unfold repr.
  destruct (Z.eq_dec z 0) as [-> | Hz0]; [apply Zmod_0_l|].
  apply mul_pow2_repr. split; [apply grid_nonneg|].
  unfold grid. rewrite Z.log2_mul_pow2 by (unfold bias; lia).
  assert (Z.log2 z < 53) by (apply Z.log2_lt_pow2; lia).
  unfold bias. lia.
Qed.


(** *** The shifts of [SpecFloat] *)

Lemma iter_pos_nat {A} (f : A -> A) (p : positive) (x : A) :
  iter_pos f p x = Nat.iter (Pos.to_nat p) f x.
Proof.
  revert x. induction p as [p IH | p IH |]; intros x; cbn [iter_pos].
  - rewrite !IH, Pos2Nat.inj_xI, <- Nat.iter_add, <- Nat.iter_succ_r.
    f_equal. lia.
  - rewrite !IH, Pos2Nat.inj_xO, <- Nat.iter_add. f_equal. lia.
  - reflexivity.
Qed.

Lemma digits2_size (m : positive) : digits2_pos m = Pos.size m.
Proof. induction m as [m IH | m IH |]; simpl; congruence. Qed.

Lemma digits2_log2 (m : positive) : Zpos (digits2_pos m) = Z.log2 (Zpos m) + 1.
Proof. rewrite digits2_size. destruct m; simpl; lia. Qed.

(** One right shift of a nonnegative mantissa. *)
Lemma shr_1_nonneg (m : Z) (r s : bool) :
  0 <= m -> shr_1 (Build_shr_record m r s) = Build_shr_record (m / 2) (Z.odd m) (r || s).
Proof.
  intros Hm. destruct m as [| p | p]; [reflexivity | | lia].
  destruct p as [p | p |]; simpl shr_1.
  - f_equal. rewrite Pos2Z.inj_xI. rewrite Z.mul_comm, Z.div_add_l by lia. reflexivity.
  - f_equal. rewrite Pos2Z.inj_xO. rewrite Z.mul_comm, Z.div_mul by lia. reflexivity.
  - reflexivity.
Qed.

(** [n + 1] right shifts, from an exact mantissa. *)
Lemma shr_iter (m : Z) (n : nat) :
  0 <= m ->
  Nat.iter (S n) shr_1 (Build_shr_record m false false) =
    Build_shr_record (m / 2 ^ Z.of_nat (S n))
      (Z.odd (m / 2 ^ Z.of_nat n))
      (negb (m mod 2 ^ Z.of_nat n =? 0)).
Proof.
  intros Hm. induction n as [|n IH].
  - rewrite Nat.iter_succ. change (Nat.iter 0 shr_1 ?x) with x.
    rewrite shr_1_nonneg by assumption.
    change (2 ^ Z.of_nat 0) with 1. change (2 ^ Z.of_nat 1) with 2.
    now rewrite Z.div_1_r, Z.mod_1_r.
  - rewrite Nat.iter_succ, IH.
    assert (Hp : 0 < 2 ^ Z.of_nat n) by (apply pow2_pos; lia).
    assert (Hp' : 0 < 2 ^ Z.of_nat (S n)) by (apply pow2_pos; lia).
    rewrite shr_1_nonneg by (apply Z.div_pos; lia).
    assert (Hs : 2 ^ Z.of_nat (S n) = 2 ^ Z.of_nat n * 2)
      by (rewrite Nat2Z.inj_succ, Z.pow_succ_r by lia; lia).
    f_equal.
    + rewrite Z.div_div by lia.
      f_equal. rewrite (Nat2Z.inj_succ (S n)), Z.pow_succ_r by lia. lia.
    + rewrite Hs, Z.rem_mul_r by lia.
      pose proof (Z.mod_pos_bound m (2 ^ Z.of_nat n) Hp) as Hb.
      rewrite (Zmod_odd (m / 2 ^ Z.of_nat n)).
      destruct (Z.odd (m / 2 ^ Z.of_nat n));
        destruct (Z.eqb_spec (m mod 2 ^ Z.of_nat n) 0) as [E | E];
        cbn [orb negb]; symmetry;
        first [ apply negb_true_iff, Z.eqb_neq; lia
              | apply negb_false_iff, Z.eqb_eq; lia ].
Qed.

Lemma rne_0_shift (m : Z) : rne m 0 = m.
Proof.
  unfold rne. change (2 ^ 0) with 1. rewrite Z.div_1_r, Z.mod_1_r. reflexivity.
Qed.

(** Shifting an exact nonnegative mantissa right by [n] and rounding gives
    [rne m n]; the exponent moves by the same amount. *)
Lemma shr_round (m e n : Z) :
  0 <= m ->
  let res := shr (Build_shr_record m false false) e n in
  round_nearest_even (shr_m (fst res)) (loc_of_shr_record (fst res)) = rne m (Z.max 0 n)
  /\ snd res = e + Z.max 0 n
  /\ shr_m (fst res) = m / 2 ^ Z.max 0 n.
Proof.
  intros Hm. destruct n as [| p | p]; cbn [shr fst snd].
  - change (Z.max 0 0) with 0. rewrite rne_0_shift, Z.add_0_r.
    change (2 ^ 0) with 1. now rewrite Z.div_1_r.
  - rewrite Z.max_r by lia. split; [| split; [reflexivity |]].
    2:{ rewrite iter_pos_nat. destruct (Pos2Nat.is_succ p) as [k Hk]. rewrite Hk.
        rewrite shr_iter by assumption. cbn [shr_m]. f_equal. f_equal. lia. }
    rewrite iter_pos_nat.
    destruct (Pos2Nat.is_succ p) as [k Hk]. rewrite Hk.
    rewrite shr_iter by assumption.
    assert (Hp : Zpos p = Z.of_nat (S k)) by lia.
    rewrite Hp. cbn [shr_m loc_of_shr_record].
    assert (Hk0 : 0 < 2 ^ Z.of_nat k) by (apply pow2_pos; lia).
    assert (Hs : 2 ^ Z.of_nat (S k) = 2 ^ Z.of_nat k * 2)
      by (rewrite Nat2Z.inj_succ, Z.pow_succ_r by lia; lia).
    assert (Hmod : m mod 2 ^ Z.of_nat (S k) =
                   m mod 2 ^ Z.of_nat k
                   + 2 ^ Z.of_nat k * (if Z.odd (m / 2 ^ Z.of_nat k) then 1 else 0)).
    { rewrite Hs, Z.rem_mul_r, (Zmod_odd (m / 2 ^ Z.of_nat k)) by lia. reflexivity. }
    unfold rne. cbv zeta. rewrite Hmod.
    pose proof (Z.mod_pos_bound m (2 ^ Z.of_nat k) Hk0) as Hb.
    set (low := m mod 2 ^ Z.of_nat k) in *.
    set (P := 2 ^ Z.of_nat k) in *.
    set (N := 2 ^ Z.of_nat (S k)) in *.
    destruct (Z.odd (m / P)); destruct (Z.eqb_spec low 0) as [E | E];
      cbn [negb round_nearest_even];
      destruct (Z.ltb_spec (2 * (low + P * 1)) N);
      destruct (Z.ltb_spec N (2 * (low + P * 1)));
      destruct (Z.ltb_spec (2 * (low + P * 0)) N);
      destruct (Z.ltb_spec N (2 * (low + P * 0)));
      try reflexivity; try lia.
  - rewrite Z.max_l by lia. rewrite rne_0_shift, Z.add_0_r.
    change (2 ^ 0) with 1. now rewrite Z.div_1_r.
Qed.

(** *** What [binary_round_aux] computes *)

(** The exponent [fexp] chooses is that of the grid. *)
Lemma fexp_grid (m : positive) (e : Z) :
  - bias <= e ->
  fexp prec emax (Zpos (digits2_pos m) + e) + bias = grid (Zpos m * 2 ^ (e + bias)).
Proof.
  intros He. unfold fexp, emin, prec, emax, grid.
  rewrite digits2_log2, Z.log2_mul_pow2 by lia. unfold bias. lia.
Qed.

(** On an exact positive mantissa, [binary_round_aux] returns a zero or a
    finite number whose value is the input's, rounded; it does not
    overflow while the input is below [2 ^ 971]. *)
Lemma binary_round_aux_value (s : bool) (m : positive) (e : Z) :
  - bias <= e ->
  Zpos m * 2 ^ (e + bias) < 2 ^ (971 + bias) ->
  match binary_round_aux prec emax s (Zpos m) e loc_Exact with
  | S754_zero s' => s' = s /\ round_pos (Zpos m * 2 ^ (e + bias)) = 0
  | S754_finite s' m' e' =>
      s' = s /\ -1074 <= e' <= 971 /\
      Zpos m' * 2 ^ (e' + bias) = round_pos (Zpos m * 2 ^ (e + bias))
  | _ => False
  end.
Proof.
  intros He Hlt.
  set (U := Zpos m * 2 ^ (e + bias)) in *.
  assert (HU : 0 < U) by (unfold U; pose proof (pow2_pos (e + bias)); lia).
  pose proof (fexp_grid m e He) as Hgrid. fold U in Hgrid.
  assert (HlogU : Z.log2 U = Z.log2 (Zpos m) + (e + bias))
    by (unfold U; rewrite Z.log2_mul_pow2 by lia; lia).
  assert (HlogU' : Z.log2 U < 971 + bias) by (apply Z.log2_lt_pow2; assumption).
  pose proof (Z.log2_nonneg (Zpos m)) as Hlm.
  unfold binary_round_aux, shr_fexp.
  cbn [shr_record_of_loc Zdigits2].
  set (fe := fexp prec emax (Zpos (digits2_pos m) + e)) in *.
  pose proof (shr_round (Zpos m) e (fe - e) ltac:(lia)) as Hsh. cbv zeta in Hsh.
  destruct (shr {| shr_m := Zpos m; shr_r := false; shr_s := false |} e (fe - e))
    as [mrs' e'].
  cbn [fst snd] in Hsh. destruct Hsh as (Hm1 & He' & _).
  rewrite Hm1. set (n0 := Z.max 0 (fe - e)) in *.
  set (m1 := rne (Zpos m) n0) in *.
  assert (Hfe : -1074 <= fe) by (unfold fe, fexp, emin, prec, emax; lia).
  assert (HRnd : round_pos U = m1 * 2 ^ (e' + bias)).
  { unfold round_pos. rewrite <- Hgrid.
    destruct (Z.le_gt_cases (fe - e) 0) as [Hn | Hn].
    - assert (n0 = 0) by (unfold n0; lia).
      assert (Hr : U mod 2 ^ (fe + bias) = 0)
        by (apply mul_pow2_repr; unfold bias in *; lia).
      rewrite rne_divisible by (unfold bias in *; lia || assumption).
      unfold m1. replace n0 with 0 by lia. rewrite rne_0_shift.
      replace (e' + bias) with (e + bias) by lia.
      pose proof (Z.div_mod U (2 ^ (fe + bias))
                    ltac:(pose proof (pow2_pos (fe + bias)); unfold bias in *; lia)).
      unfold U in *. lia.
    - assert (n0 = fe - e) by (unfold n0; lia).
      replace (fe + bias) with (n0 + (e + bias)) by lia.
      unfold U. rewrite rne_scale by lia.
      replace (e' + bias) with (n0 + (e + bias)) by lia. reflexivity. }
  assert (Hm1b : 0 <= m1 <= 2 ^ 53).
  { destruct (Z.le_gt_cases (fe - e) 0) as [Hn | Hn].
    - assert (n0 = 0) by (unfold n0; lia).
      unfold m1. replace n0 with 0 by lia. rewrite rne_0_shift.
      assert (Z.log2 (Zpos m) <= 52)
        by (unfold fe, fexp, emin, prec, emax in Hn; rewrite digits2_log2 in Hn; lia).
      pose proof (Z.log2_spec (Zpos m) ltac:(lia)) as [_ Hs].
      assert (2 ^ Z.succ (Z.log2 (Zpos m)) <= 2 ^ 53) by (apply Z.pow_le_mono_r; lia).
      lia.
    - assert (Hn0 : n0 = fe - e) by (unfold n0; lia).
      pose proof (rne_le_pow53 U HU) as Hq.
      rewrite <- Hgrid in Hq.
      replace (fe + bias) with (n0 + (e + bias)) in Hq by lia.
      unfold U in Hq. rewrite rne_scale in Hq by lia. fold m1 in Hq.
      split; [| exact Hq].
      pose proof (rne_bounds (Zpos m) n0 ltac:(lia)) as [Hq0 _].
      pose proof (Z.div_pos (Zpos m) (2 ^ n0) ltac:(lia) ltac:(apply pow2_pos; lia)).
      fold m1 in Hq0. lia. }
  assert (He'b : -1074 <= e' <= 970).
  { unfold n0 in *. unfold fe, fexp, emin, prec, emax in *.
    rewrite digits2_log2 in *. unfold bias in *. lia. }
  pose proof (shr_round m1 e' (fexp prec emax (Zdigits2 m1 + e') - e') ltac:(lia)) as Hsh2.
  cbv zeta in Hsh2.
  change (shr_record_of_loc m1 loc_Exact) with (Build_shr_record m1 false false).
  destruct (shr {| shr_m := m1; shr_r := false; shr_s := false |} e'
              (fexp prec emax (Zdigits2 m1 + e') - e')) as [mrs'' e''].
  cbn [fst snd] in Hsh2. destruct Hsh2 as (_ & He'' & Hm2).
  rewrite Hm2.
  set (n1 := Z.max 0 (fexp prec emax (Zdigits2 m1 + e') - e')) in *.
  destruct (Z.eq_dec m1 0) as [Hz | Hnz].
  - rewrite Hz, Zdiv_0_l. split; [reflexivity |]. rewrite HRnd, Hz. reflexivity.
  - assert (Hdig : Zdigits2 m1 = Z.log2 m1 + 1).
    { destruct m1 as [| p | p]; [lia | apply digits2_log2 | lia]. }
    destruct (Z.eq_dec m1 (2 ^ 53)) as [Htop | Hlow].
    + assert (Hn1 : n1 = 1).
      { unfold n1, fexp, emin, prec, emax. rewrite Hdig, Htop, Z.log2_pow2 by lia. lia. }
      rewrite Hn1, Htop. change (2 ^ 53 / 2 ^ 1) with (Zpos (2 ^ 52)).
      destruct (Z.leb_spec e'' (emax - prec)) as [Hle | Hgt];
        [| unfold emax, prec in Hgt; lia].
      split; [reflexivity |]. split; [lia |].
      rewrite HRnd, Htop, He'', Hn1.
      replace (e' + 1 + bias) with (1 + (e' + bias)) by lia.
      rewrite Z.pow_add_r by (unfold bias; lia).
      rewrite Z.mul_assoc. reflexivity.
    + assert (Hn1 : n1 = 0).
      { assert (Z.log2 m1 < 53) by (apply Z.log2_lt_pow2; lia).
        unfold n1, fexp, emin, prec, emax. rewrite Hdig. lia. }
      rewrite Hn1. change (2 ^ 0) with 1. rewrite Z.div_1_r.
      destruct m1 as [| p | p]; [lia | | lia].
      destruct (Z.leb_spec e'' (emax - prec)) as [Hle | Hgt];
        [| unfold emax, prec in Hgt; lia].
      split; [reflexivity |]. split; [lia |].
      rewrite HRnd, He'', Hn1, Z.add_0_r. reflexivity.
Qed.


(** *** Alignment and normalization *)

Lemma pos_iter_xO (m d : positive) : Zpos (Pos.iter xO m d) = Zpos m * 2 ^ Zpos d.
Proof.
  induction d as [| d IH] using Pos.peano_ind.
  - cbn [Pos.iter]. rewrite Pos2Z.inj_xO, Z.pow_1_r. lia.
  - rewrite Pos.iter_succ, Pos2Z.inj_xO, IH, Pos2Z.inj_succ, Z.pow_succ_r by lia. lia.
Qed.

Lemma shl_align_value (mx : positive) (ex ex' : Z) :
  - bias <= ex -> - bias <= ex' ->
  snd (shl_align mx ex ex') = Z.min ex ex' /\
  Zpos (fst (shl_align mx ex ex')) = Zpos mx * 2 ^ (ex - Z.min ex ex') /\
  Zpos (fst (shl_align mx ex ex')) * 2 ^ (snd (shl_align mx ex ex') + bias)
    = Zpos mx * 2 ^ (ex + bias).
Proof.
  intros Hex Hex'. unfold shl_align.
  destruct (ex' - ex) as [| d | d] eqn:Hd; cbn [fst snd].
  - rewrite Z.min_l by lia. now rewrite Z.sub_diag, Z.mul_1_r.
  - rewrite Z.min_l by lia. now rewrite Z.sub_diag, Z.mul_1_r.
  - rewrite Z.min_r by lia. rewrite pos_iter_xO.
    replace (ex - ex') with (Zpos d) by lia.
    split; [reflexivity |]. split; [reflexivity |].
    rewrite <- Z.mul_assoc, <- Z.pow_add_r by lia. f_equal. f_equal. lia.
Qed.

Lemma binary_round_value (s : bool) (m : positive) (e : Z) :
  - bias <= e ->
  Zpos m * 2 ^ (e + bias) < 2 ^ (971 + bias) ->
  match binary_round prec emax s m e with
  | S754_zero s' => s' = s /\ round_pos (Zpos m * 2 ^ (e + bias)) = 0
  | S754_finite s' m' e' =>
      s' = s /\ -1074 <= e' <= 971 /\
      Zpos m' * 2 ^ (e' + bias) = round_pos (Zpos m * 2 ^ (e + bias))
  | _ => False
  end.
Proof.
  intros He Hlt. unfold binary_round.
  set (fe := fexp prec emax (Zpos (digits2_pos m) + e)).
  assert (Hfe : - bias <= fe) by (unfold fe, fexp, emin, prec, emax, bias; lia).
  pose proof (shl_align_value m e fe He Hfe) as (Hsnd & _ & Hval).
  destruct (shl_align m e fe) as [mz ez]. cbn [fst snd] in *.
  rewrite <- Hval. apply binary_round_aux_value; [lia | now rewrite Hval].
Qed.

(** *** Rounding signed values *)

Lemma round_zero : round 0 = 0.
Proof. reflexivity. Qed.

Lemma round_nonneg_eq u : 0 <= u -> round u = round_pos u.
Proof.
  intros Hu. unfold round. destruct (Z.eq_dec u 0) as [-> | Hne].
  - now rewrite round_pos_zero.
  - rewrite Z.sgn_pos, Z.abs_eq by lia. lia.
Qed.

Lemma round_opp u : round (- u) = - round u.
Proof. unfold round. rewrite Z.sgn_opp, Z.abs_opp. apply Z.mul_opp_l. Qed.

Lemma round_nonpos_eq u : u <= 0 -> round u = - round_pos (- u).
Proof.
  intros Hu. replace u with (- - u) at 1 by lia. rewrite round_opp, round_nonneg_eq by lia.
  reflexivity.
Qed.

Lemma round_mono u v : u <= v -> round u <= round v.
Proof.
  intros Huv.
  destruct (Z.le_gt_cases 0 u) as [Hu | Hu].
  - rewrite !round_nonneg_eq by lia. apply round_pos_mono; lia.
  - rewrite (round_nonpos_eq u) by lia.
    pose proof (round_pos_nonneg (- u) ltac:(lia)).
    destruct (Z.le_gt_cases 0 v) as [Hv | Hv].
    + rewrite (round_nonneg_eq v) by lia. pose proof (round_pos_nonneg v Hv). lia.
    + rewrite (round_nonpos_eq v) by lia.
      pose proof (round_pos_mono (- v) (- u) ltac:(lia) ltac:(lia)). lia.
Qed.

Lemma round_repr u : repr (Z.abs u) -> round u = u.
Proof. intros Hr. unfold round. rewrite round_pos_repr by assumption. lia. Qed.

Lemma round_int z : Z.abs z < 2 ^ 53 -> round (z * 2 ^ bias) = z * 2 ^ bias.
Proof.
  intros Hz. apply round_repr. rewrite Z.abs_mul, (Z.abs_eq (2 ^ bias)) by (unfold bias; lia).
  apply int_repr. lia.
Qed.

Lemma regular_sval_repr x : regular x -> repr (Z.abs (sval x)).
Proof.
  destruct x as [s | s | | s m e]; cbn [regular sval]; try tauto.
  - intros _. unfold repr. apply Zmod_0_l.
  - intros [He Hr]. pose proof (pow2_pos (e + bias) ltac:(unfold bias; lia)).
    destruct s; cbn [cond_Zopp].
    + rewrite Z.abs_opp, Z.abs_eq by lia. assumption.
    + rewrite Z.abs_eq by lia. assumption.
Qed.

Lemma regular_round x : regular x -> round (sval x) = sval x.
Proof. intros HF. apply round_repr, regular_sval_repr, HF. Qed.

(** [binary_normalize] rounds the value it is given. *)
Lemma normalize_value (M e : Z) :
  - bias <= e ->
  Z.abs M * 2 ^ (e + bias) < 2 ^ (971 + bias) ->
  let x := binary_normalize prec emax M e false in
  regular x /\ sval x = round (M * 2 ^ (e + bias)) /\ (0 <= M -> sign x = false).
Proof.
  intros He Hlt. cbv zeta.
  pose proof (pow2_pos (e + bias) ltac:(lia)) as HP.
  destruct M as [| m | m]; cbn [binary_normalize].
  - cbn [regular sval sign]. now rewrite Z.mul_0_l.
  - pose proof (binary_round_value false m e He) as Hb.
    rewrite Z.abs_eq in Hlt by lia. specialize (Hb Hlt).
    rewrite round_nonneg_eq by lia.
    destruct (binary_round prec emax false m e) as [s' | s' | | s' m' e'];
      cbn [regular sval sign]; try contradiction.
    + destruct Hb as [-> Hz]. now rewrite Hz.
    + destruct Hb as (-> & Hb & Hv). cbn [cond_Zopp]. rewrite Hv.
      repeat split; try lia; apply round_pos_is_repr; lia.
  - pose proof (binary_round_value true m e He) as Hb.
    change (Z.abs (Zneg m)) with (Zpos m) in Hlt. specialize (Hb Hlt).
    change (Zneg m) with (- Zpos m). rewrite Z.mul_opp_l, round_opp, round_nonneg_eq by lia.
    destruct (binary_round prec emax true m e) as [s' | s' | | s' m' e'];
      cbn [regular sval sign]; try contradiction.
    + destruct Hb as [-> Hz]. rewrite Hz. repeat split; lia.
    + destruct Hb as (-> & Hb & Hv). cbn [cond_Zopp]. rewrite Hv.
      repeat split; try lia; apply round_pos_is_repr; lia.
Qed.


(** *** Addition, subtraction and multiplication on values *)

Lemma cond_Zopp_mul (s : bool) (a k : Z) : cond_Zopp s a * k = cond_Zopp s (a * k).
Proof. destruct s; cbn [cond_Zopp]; lia. Qed.

Lemma regular_exponent s m e : regular (S754_finite s m e) -> - bias <= e.
Proof. cbn [regular]. unfold bias. lia. Qed.

Lemma sval_sign_false x : regular x -> 0 <= sval x -> x <> S754_zero true -> sign x = false.
Proof.
  destruct x as [s | s | | s m e]; cbn [regular sval sign]; try tauto.
  - destruct s; [congruence | reflexivity].
  - intros [He _] Hv _. pose proof (pow2_pos (e + bias) ltac:(unfold bias; lia)).
    destruct s; cbn [cond_Zopp] in Hv; [lia | reflexivity].
Qed.

(** The exact sum or difference of two finite numbers, as [SFadd] and
    [SFsub] form it before rounding. *)
Lemma aligned_sum (sx sy : bool) (mx my : positive) (ex ey : Z) (op : Z -> Z -> Z) :
  - bias <= ex -> - bias <= ey ->
  (forall a b k, op a b * k = op (a * k) (b * k)) ->
  let ez := Z.min ex ey in
  op (cond_Zopp sx (Zpos (fst (shl_align mx ex ez))))
     (cond_Zopp sy (Zpos (fst (shl_align my ey ez)))) * 2 ^ (ez + bias)
  = op (sval (S754_finite sx mx ex)) (sval (S754_finite sy my ey)).
Proof.
  intros Hex Hey Hop ez. rewrite Hop, !cond_Zopp_mul. cbn [sval].
  pose proof (shl_align_value mx ex ez Hex ltac:(unfold ez; lia)) as (Hs1 & _ & Hv1).
  pose proof (shl_align_value my ey ez Hey ltac:(unfold ez; lia)) as (Hs2 & _ & Hv2).
  rewrite Hs1 in Hv1. rewrite Hs2 in Hv2.
  replace (Z.min ex ez) with ez in Hv1 by (unfold ez; lia).
  replace (Z.min ey ez) with ez in Hv2 by (unfold ez; lia).
  now rewrite Hv1, Hv2.
Qed.

(** The sum of two regular numbers is the rounded sum of their values;
    it is not negative when the first is not and the exact sum is not. *)
Lemma add_value (x y : number) :
  regular x -> regular y -> Z.abs (sval x + sval y) < 2 ^ (971 + bias) ->
  regular (add x y) /\ sval (add x y) = round (sval x + sval y) /\
  (sign x = false -> 0 <= sval x + sval y -> sign (add x y) = false).
Proof.
  intros Hx Hy Hlt.
  destruct x as [sx | sx | | sx mx ex]; try contradiction;
    destruct y as [sy | sy | | sy my ey]; try contradiction.
  - destruct sx, sy; cbn; auto.
  - change (add (S754_zero sx) (S754_finite sy my ey)) with (S754_finite sy my ey).
    change (sval (S754_zero sx)) with 0. rewrite Z.add_0_l.
    split; [assumption |]. split; [symmetry; now apply regular_round |].
    intros _ Hv. apply sval_sign_false; [assumption | assumption | discriminate].
  - change (add (S754_finite sx mx ex) (S754_zero sy)) with (S754_finite sx mx ex).
    change (sval (S754_zero sy)) with 0. rewrite Z.add_0_r.
    split; [assumption |]. split; [symmetry; now apply regular_round |].
    intros Hs _. exact Hs.
  - pose proof (regular_exponent _ _ _ Hx) as Hex. pose proof (regular_exponent _ _ _ Hy) as Hey.
    pose proof (aligned_sum sx sy mx my ex ey Z.add Hex Hey ltac:(intros; lia)) as Hsum.
    cbv zeta in Hsum. unfold add, SFadd.
    set (ez := Z.min ex ey) in *.
    set (M := cond_Zopp sx (Zpos (fst (shl_align mx ex ez)))
              + cond_Zopp sy (Zpos (fst (shl_align my ey ez)))) in *.
    pose proof (pow2_pos (ez + bias) ltac:(unfold ez; lia)) as HP.
    pose proof (normalize_value M ez ltac:(unfold ez; lia)) as Hn.
    rewrite <- Hsum in Hlt |- *.
    rewrite Z.abs_mul, (Z.abs_eq (2 ^ (ez + bias))) in Hlt by lia.
    destruct (Hn Hlt) as (HF & Hv & Hs).
    split; [exact HF |]. split; [exact Hv |].
    intros _ HM. apply Hs. nia.
Qed.

(** The difference of two regular numbers is the rounded difference of
    their values. *)
Lemma sub_value (x y : number) :
  regular x -> regular y -> Z.abs (sval x - sval y) < 2 ^ (971 + bias) ->
  regular (sub x y) /\ sval (sub x y) = round (sval x - sval y).
Proof.
  intros Hx Hy Hlt.
  destruct x as [sx | sx | | sx mx ex]; try contradiction;
    destruct y as [sy | sy | | sy my ey]; try contradiction.
  - destruct sx, sy; cbn; auto.
  - change (sub (S754_zero sx) (S754_finite sy my ey)) with (S754_finite (negb sy) my ey).
    assert (HF : regular (S754_finite (negb sy) my ey)) by exact Hy.
    split; [exact HF |].
    replace (sval (S754_zero sx) - sval (S754_finite sy my ey))
      with (sval (S754_finite (negb sy) my ey))
      by (cbn [sval]; destruct sy; cbn [negb cond_Zopp]; lia).
    symmetry. now apply regular_round.
  - change (sub (S754_finite sx mx ex) (S754_zero sy)) with (S754_finite sx mx ex).
    change (sval (S754_zero sy)) with 0. rewrite Z.sub_0_r.
    split; [assumption | symmetry; now apply regular_round].
  - pose proof (regular_exponent _ _ _ Hx) as Hex. pose proof (regular_exponent _ _ _ Hy) as Hey.
    pose proof (aligned_sum sx sy mx my ex ey Z.sub Hex Hey ltac:(intros; lia)) as Hsum.
    cbv zeta in Hsum. unfold sub, SFsub.
    set (ez := Z.min ex ey) in *.
    set (M := cond_Zopp sx (Zpos (fst (shl_align mx ex ez)))
              - cond_Zopp sy (Zpos (fst (shl_align my ey ez)))) in *.
    pose proof (pow2_pos (ez + bias) ltac:(unfold ez; lia)) as HP.
    pose proof (normalize_value M ez ltac:(unfold ez; lia)) as Hn.
    rewrite <- Hsum in Hlt |- *.
    rewrite Z.abs_mul, (Z.abs_eq (2 ^ (ez + bias))) in Hlt by lia.
    destruct (Hn Hlt) as (HF & Hv & _). now split.
Qed.

(** The product of two regular numbers is the rounded product of their
    values. *)
Lemma mul_value (x y : number) :
  regular x -> regular y -> Z.abs (sval x * sval y) < 2 ^ (971 + bias) * 2 ^ bias ->
  regular (mul x y) /\ sval (mul x y) = round (sval x * sval y / 2 ^ bias) /\
  sign (mul x y) = xorb (sign x) (sign y).
Proof.
  intros Hx Hy Hlt.
  destruct x as [sx | sx | | sx mx ex]; try contradiction;
    destruct y as [sy | sy | | sy my ey]; try contradiction.
  - cbn. auto.
  - cbn [mul SFmul regular sval sign]. rewrite Z.mul_0_l, Zdiv_0_l. auto.
  - cbn [mul SFmul regular sval sign]. rewrite Z.mul_0_r, Zdiv_0_l. auto.
  - destruct Hx as [Hex _]. destruct Hy as [Hey _].
    unfold mul, SFmul.
    assert (HB : 0 < 2 ^ bias) by (apply pow2_pos; unfold bias; lia).
    set (U := Zpos (mx * my) * 2 ^ (ex + ey + bias)).
    assert (Hprod : sval (S754_finite sx mx ex) * sval (S754_finite sy my ey)
                    = cond_Zopp (xorb sx sy) U * 2 ^ bias).
    { cbn [sval]. unfold U.
      replace (ex + ey + bias) with ((ex + bias) + (ey + bias) - bias) by lia.
      assert (Hsplit : 2 ^ (ex + bias + (ey + bias) - bias) * 2 ^ bias
                       = 2 ^ (ex + bias) * 2 ^ (ey + bias)).
      { rewrite <- !Z.pow_add_r by (unfold bias in *; lia). f_equal. lia. }
      rewrite Pos2Z.inj_mul, cond_Zopp_mul.
      set (Pz := 2 ^ (ex + bias + (ey + bias) - bias)) in *.
      set (Px := 2 ^ (ex + bias)) in *. set (Py := 2 ^ (ey + bias)) in *.
      set (Pb := 2 ^ bias) in *.
      assert (Hs2 : Zpos mx * Zpos my * Pz * Pb = Zpos mx * Px * (Zpos my * Py))
        by (rewrite <- (Z.mul_assoc _ Pz Pb), Hsplit; ring).
      destruct sx, sy; cbn [xorb cond_Zopp]; lia. }
    rewrite Hprod in Hlt |- *. rewrite Z.div_mul by lia.
    assert (HU : 0 < U).
    { unfold U. pose proof (pow2_pos (ex + ey + bias) ltac:(unfold bias; lia)). lia. }
    assert (HltU : U < 2 ^ (971 + bias)).
    { destruct (xorb sx sy); cbn [cond_Zopp] in Hlt;
        rewrite ?Z.mul_opp_l, ?Z.abs_opp, Z.abs_eq in Hlt by nia; nia. }
    pose proof (binary_round_aux_value (xorb sx sy) (mx * my) (ex + ey) ltac:(unfold bias; lia) HltU) as Hb.
    fold U in Hb.
    destruct (binary_round_aux prec emax (xorb sx sy) (Zpos (mx * my)) (ex + ey) loc_Exact)
      as [s' | s' | | s' m' e']; try contradiction.
    + destruct Hb as [-> Hz]. cbn [regular sval sign]. split; [exact I |].
      split; [| reflexivity].
      destruct (xorb sx sy); cbn [cond_Zopp]; rewrite ?round_nonpos_eq, ?round_nonneg_eq by lia;
        rewrite ?Z.opp_involutive, Hz; reflexivity.
    + destruct Hb as (-> & Hb & Hv). cbn [regular sval sign].
      split; [split; [lia | rewrite Hv; apply round_pos_is_repr; lia] |].
      split; [| reflexivity].
      destruct (xorb sx sy); cbn [cond_Zopp]; rewrite ?round_nonpos_eq, ?round_nonneg_eq by lia;
        rewrite ?Z.opp_involutive, Hv; reflexivity.
Qed.



(** *** Integers as numbers *)

Lemma bias_pos : 0 < 2 ^ bias.
Proof. apply pow2_pos. unfold bias. lia. Qed.

Lemma pow2_lt_mono a b : 0 <= a < b -> 2 ^ a < 2 ^ b.
Proof. intros. apply Z.pow_lt_mono_r; lia. Qed.

Lemma int_scaled_bound z k :
  Z.abs z < 2 ^ k -> 0 <= k -> Z.abs z * 2 ^ bias < 2 ^ (k + bias).
Proof.
  intros Hz Hk. rewrite Z.pow_add_r by (unfold bias; lia).
  pose proof bias_pos. nia.
Qed.

(** An integer below [2 ^ 53] is a number exactly. *)
Lemma of_Z_value (z : Z) :
  Z.abs z < 2 ^ 53 ->
  regular (of_Z z) /\ sval (of_Z z) = z * 2 ^ bias /\ (0 <= z -> sign (of_Z z) = false).
Proof.
  intros Hz. unfold of_Z.
  pose proof (normalize_value z 0 ltac:(unfold bias; lia)) as Hn.
  rewrite Z.add_0_l in Hn.
  assert (Hlt : Z.abs z * 2 ^ bias < 2 ^ (971 + bias)).
  { eapply Z.lt_trans; [apply (int_scaled_bound z 53); lia |].
    apply pow2_lt_mono. unfold bias. lia. }
  destruct (Hn Hlt) as (HF & Hv & Hs).
  rewrite round_int in Hv by assumption. auto.
Qed.

Lemma cond_Zopp_invol (s : bool) (z : Z) : cond_Zopp s (cond_Zopp s z) = z.
Proof. destruct s; cbn [cond_Zopp]; lia. Qed.

(** A number whose value is an integer converts to that integer. *)
Lemma to_Z_sval (x : number) (z : Z) :
  regular x -> sval x = z * 2 ^ bias -> to_Z x = Some z.
Proof.
  pose proof bias_pos as HB. intros HF Hv.
  destruct x as [s | s | | s m e]; try contradiction; cbn [sval to_Z] in *.
  - f_equal. nia.
  - destruct HF as [He _].
    destruct (Z.leb_spec 0 e) as [Hpos | Hneg].
    + f_equal. rewrite Z.pow_add_r, Z.mul_assoc, <- cond_Zopp_mul in Hv by (unfold bias; lia).
      rewrite cond_Zopp_mul. apply (Z.mul_reg_r _ _ (2 ^ bias)); lia.
    + set (k := - e). set (P := 2 ^ (e + bias)) in *.
      assert (HP : 0 < P) by (apply pow2_pos; unfold bias; lia).
      assert (Hk : 0 < 2 ^ k) by (apply pow2_pos; unfold k; lia).
      assert (Hsplit : 2 ^ bias = 2 ^ k * P).
      { unfold P, k. rewrite <- Z.pow_add_r by (unfold bias; lia). f_equal. lia. }
      assert (Hm : Zpos m = cond_Zopp s z * 2 ^ k).
      { rewrite Hsplit in Hv. destruct s; cbn [cond_Zopp] in *; nia. }
      rewrite Hm, Z.mod_mul, Z.div_mul by lia. cbn [Z.eqb].
      now rewrite cond_Zopp_invol.
Qed.

(** *** [Math.round] on values *)

Lemma half_up_int (z : Z) : half_up (z * 2 ^ bias) = z.
Proof.
  unfold half_up. pose proof bias_pos.
  rewrite Z.div_add_l by lia.
  rewrite Z.div_small; [lia |].
  split; [apply Z.pow_nonneg; lia | apply pow2_lt_mono; unfold bias; lia].
Qed.

Lemma half_up_mono (u v : Z) : u <= v -> half_up u <= half_up v.
Proof.
  intros Huv. unfold half_up. apply Z.div_le_mono; [apply bias_pos | lia].
Qed.

(** [Math.round] returns the integer [half_up] of the value, as a number,
    and a zero with the sign of its argument when that integer is 0. *)
Lemma Math_round_value (x : number) :
  regular x ->
  Math_round x =
    if half_up (sval x) =? 0 then S754_zero (sign x) else of_Z (half_up (sval x)).
Proof.
  pose proof bias_pos as HB. intros HF.
  destruct x as [s | s | | s m e]; try contradiction.
  - cbn [Math_round sval sign].
    replace (half_up 0) with 0 by (symmetry; exact (half_up_int 0)).
    reflexivity.
  - destruct HF as [He _]. cbn [Math_round sval sign].
    assert (Hn : (if 0 <=? e then cond_Zopp s (Zpos m) * 2 ^ e
                  else Z.shiftr (cond_Zopp s (Zpos m) + 2 ^ (- e - 1)) (- e))
                 = half_up (cond_Zopp s (Zpos m * 2 ^ (e + bias)))).
    { rewrite <- cond_Zopp_mul.
      destruct (Z.leb_spec 0 e) as [Hpos | Hneg].
      - rewrite Z.pow_add_r, Z.mul_assoc by (unfold bias; lia). apply eq_sym, half_up_int.
      - rewrite Z.shiftr_div_pow2 by lia. unfold half_up.
        set (P := 2 ^ (e + bias)).
        assert (HP : 0 < P) by (apply pow2_pos; unfold bias; lia).
        assert (H1 : 2 ^ bias = 2 ^ (- e) * P)
          by (unfold P; rewrite <- Z.pow_add_r by (unfold bias; lia); f_equal; lia).
        assert (H2 : 2 ^ (bias - 1) = 2 ^ (- e - 1) * P)
          by (unfold P; rewrite <- Z.pow_add_r by (unfold bias; lia); f_equal; lia).
        assert (Hk : 0 < 2 ^ (- e)) by (apply pow2_pos; lia).
        rewrite H1, H2, <- Z.mul_add_distr_r.
        rewrite Z.div_mul_cancel_r by lia.
        reflexivity. }
    rewrite Hn. reflexivity.
Qed.

Lemma to_Z_of_Z (z : Z) : Z.abs z < 2 ^ 53 -> to_Z (of_Z z) = Some z.
Proof.
  intros Hz. destruct (of_Z_value z Hz) as (HF & Hv & _). now apply to_Z_sval.
Qed.

(** A valid finite number is on its grid. *)
Lemma valid_regular (x : number) :
  valid_binary prec emax x = true ->
  match x with S754_infinity _ | S754_nan => True | _ => regular x end.
Proof.
  destruct x as [s | s | | s m e]; cbn [valid_binary regular]; auto.
  unfold bounded, canonical_mantissa. rewrite andb_true_iff, Z.eqb_eq, Z.leb_le.
  intros [Hc _].
  assert (He : -1074 <= e) by (unfold fexp, emin, prec, emax in Hc; lia).
  split; [exact He |].
  unfold repr. rewrite <- fexp_grid, Hc by (unfold bias; lia).
  apply Z.mod_mul. pose proof (pow2_pos (e + bias) ltac:(unfold bias; lia)). lia.
Qed.

(** *** Numbers between zero and one *)

Lemma leb_finite_pos (m1 m2 : positive) (e1 e2 : Z) :
  leb (S754_finite false m1 e1) (S754_finite false m2 e2) = true ->
  e1 < e2 \/ (e1 = e2 /\ Zpos m1 <= Zpos m2).
Proof.
  unfold leb, SFleb, SFcompare. rewrite Pos.compare_cont_spec.
  destruct (Z.compare_spec e1 e2) as [Heq | Hlt | Hgt]; try discriminate.
  - destruct (Pos.compare_spec m1 m2); cbn [Pos.switch_Eq]; try discriminate;
      intros _; right; split; lia.
  - intros _. now left.
Qed.

(** A valid number between zero and one. *)
Lemma unit_interval (b : number) :
  valid_binary prec emax b = true ->
  leb (of_Z 0) b = true -> leb b (of_Z 1) = true ->
  regular b /\ 0 <= sval b <= 2 ^ bias.
Proof.
  pose proof bias_pos as HB.
  intros Hvalid H0 H1. pose proof (valid_regular b Hvalid) as HF.
  change (of_Z 0) with (S754_zero false) in H0.
  change (of_Z 1) with (S754_finite false (2 ^ 52) (-52)) in H1.
  destruct b as [s | s | | s m e].
  - cbn [sval]. split; [exact I | lia].
  - destruct s; discriminate.
  - discriminate.
  - split; [exact HF |].
    assert (Hs : s = false) by (destruct s; [discriminate | reflexivity]).
    subst s. cbn [sval cond_Zopp].
    cbn [valid_binary] in Hvalid. unfold bounded, canonical_mantissa in Hvalid.
    rewrite andb_true_iff, Z.eqb_eq in Hvalid. destruct Hvalid as [Hc _].
    rewrite digits2_log2 in Hc.
    assert (Hlog : Z.log2 (Zpos m) <= 52) by (unfold fexp, emin, prec, emax in Hc; lia).
    pose proof (Z.log2_spec (Zpos m) ltac:(lia)) as [_ Hm].
    assert (Hm53 : Zpos m < 2 ^ 53).
    { eapply Z.lt_le_trans; [exact Hm | apply Z.pow_le_mono_r; lia]. }
    destruct HF as [He _].
    pose proof (pow2_pos (e + bias) ltac:(unfold bias; lia)) as HP.
    split; [lia |].
    apply leb_finite_pos in H1. rewrite Pos2Z.inj_pow in H1.
    destruct H1 as [Hlt | [-> Hle]].
    + assert (2 ^ 53 * 2 ^ (e + bias) <= 2 ^ bias).
      { rewrite <- Z.pow_add_r by (unfold bias; lia).
        apply Z.pow_le_mono_r; lia. }
      set (P := 2 ^ (e + bias)) in *. set (B := 2 ^ bias) in *.
      set (T := 2 ^ 53) in *. nia.
    + replace (2 ^ bias) with (2 ^ 52 * 2 ^ (-52 + bias))
        by (rewrite <- Z.pow_add_r by (unfold bias; lia); f_equal; lia).
      apply Z.mul_le_mono_nonneg_r; lia.
Qed.


(** *** Enumerations *)

Lemma number_eqb_eq (x y : number) : number_eqb x y = true -> x = y.
Proof.
  destruct x as [a | a | | a m e], y as [b | b | | b n f]; cbn [number_eqb];
    try discriminate; try reflexivity.
  - intros Hb. apply Bool.eqb_prop in Hb. now subst.
  - intros Hb. apply Bool.eqb_prop in Hb. now subst.
  - rewrite !andb_true_iff, Pos.eqb_eq, Z.eqb_eq.
    intros [[Hb ->] ->]. apply Bool.eqb_prop in Hb. now subst.
Qed.

Lemma upto_In (x lo : Z) (n : nat) :
  In x (upto lo n) <-> lo <= x < lo + Z.of_nat n.
Proof.
  revert lo. induction n as [|n IH]; intros lo; cbn [upto In].
  - lia.
  - rewrite IH. lia.
Qed.

(** Comparing two positive finite numbers at a small scale. *)
Lemma sval_le_small (k : Z) (mx my : positive) (ex ey : Z) :
  0 <= k <= bias -> - k <= ex -> - k <= ey ->
  Zpos mx * 2 ^ (ex + k) <= Zpos my * 2 ^ (ey + k) ->
  sval (S754_finite false mx ex) <= sval (S754_finite false my ey).
Proof.
  intros Hk Hex Hey Hle. cbn [sval cond_Zopp].
  replace (ex + bias) with ((ex + k) + (bias - k)) by lia.
  replace (ey + bias) with ((ey + k) + (bias - k)) by lia.
  rewrite (Z.pow_add_r 2 (ex + k) (bias - k)), (Z.pow_add_r 2 (ey + k) (bias - k)) by lia.
  rewrite !Z.mul_assoc.
  apply Z.mul_le_mono_nonneg_r; [apply Z.pow_nonneg; lia | exact Hle].
Qed.

(** *** The fractions [i / steps] *)

Lemma sval_one : sval (S754_finite false (2 ^ 52) (-52)) = 2 ^ bias.
Proof.
  cbn [sval cond_Zopp]. rewrite Pos2Z.inj_pow, <- Z.pow_add_r by (unfold bias; lia).
  f_equal.
Qed.

Lemma sval_pos_finite (m : positive) (e : Z) :
  - bias <= e -> 0 <= sval (S754_finite false m e).
Proof.
  intros He. cbn [sval cond_Zopp]. pose proof (pow2_pos (e + bias) ltac:(lia)). lia.
Qed.

(** What is needed of a fraction and the next, from their mantissas and
    exponents. *)
Lemma kstep_at (i j : Z) :
  forall mi ei mj ej,
    kstep i = S754_finite false mi ei -> kstep j = S754_finite false mj ej ->
    valid_binary prec emax (S754_finite false mi ei) = true ->
    -60 <= ei -> -60 <= ej ->
    (Zpos mi * 2 ^ (ei + 60) <=? Zpos mj * 2 ^ (ej + 60)) = true ->
    (Zpos mi * 2 ^ (ei + 60) <=? 2 ^ 60) = true ->
    regular (kstep i) /\ 0 <= sval (kstep i) <= 2 ^ bias /\ sval (kstep i) <= sval (kstep j).
Proof.
  intros mi ei mj ej -> -> Hvalid Hei Hej Hle Hone.
  split; [exact (valid_regular _ Hvalid) |].
  split; [split |].
  - apply sval_pos_finite. unfold bias. lia.
  - rewrite <- sval_one. apply Z.leb_le in Hone.
    apply (sval_le_small 60);
      first [ unfold bias; lia | rewrite Pos2Z.inj_pow; exact Hone ].
  - apply Z.leb_le in Hle.
    apply (sval_le_small 60); first [ unfold bias; lia | exact Hle ].
Qed.

(** The ten fractions are regular, lie between 0 and 1, increase, and the
    last is 1. *)
Lemma kstep_props (i : Z) :
  1 <= i <= 10 ->
  regular (kstep i) /\ 0 <= sval (kstep i) <= 2 ^ bias /\
  sval (kstep i) <= sval (kstep (Z.min 10 (i + 1))) /\
  (i = 10 -> sval (kstep i) = 2 ^ bias).
Proof.
  intros Hi.
  assert (Hcases : In i (upto 1 10)) by (apply upto_In; lia).
  cbn [upto In] in Hcases.
  assert (Hlast : sval (kstep 10) = 2 ^ bias).
  { replace (kstep 10) with (S754_finite false (2 ^ 52) (-52)) by (vm_compute; reflexivity).
    apply sval_one. }
  repeat (destruct Hcases as [<- | Hcases]); try contradiction;
    cbn [Z.add Z.min Z.compare Pos.add Pos.succ Pos.compare Pos.compare_cont];
    match goal with
    | |- regular (kstep ?a) /\ _ /\ sval _ <= sval (kstep ?b) /\ _ =>
        let va := eval vm_compute in (kstep a) in
        let vb := eval vm_compute in (kstep b) in
        match va with
        | S754_finite false ?mi ?ei =>
            match vb with
            | S754_finite false ?mj ?ej =>
                destruct (kstep_at a b mi ei mj ej
                            ltac:(vm_compute; reflexivity) ltac:(vm_compute; reflexivity)
                            ltac:(vm_compute; reflexivity) ltac:(lia) ltac:(lia)
                            ltac:(vm_compute; reflexivity) ltac:(vm_compute; reflexivity))
                  as (HF & Hb & Hle)
            end
        end
    end;
    (split; [exact HF | split; [exact Hb | split; [exact Hle |]]]);
    first [ intros _; exact Hlast | intros Hne; discriminate Hne ].
Qed.


(** *** The target of the ramp *)

Lemma product_bound (z : Z) (k : Z) :
  Z.abs z < 2 ^ 60 -> 0 <= k <= 2 ^ bias ->
  Z.abs (z * 2 ^ bias * k) < 2 ^ (971 + bias) * 2 ^ bias.
Proof.
  intros Hz Hk. pose proof bias_pos as HB.
  rewrite !Z.abs_mul, (Z.abs_eq (2 ^ bias)), (Z.abs_eq k) by lia.
  assert (H1 : Z.abs z * 2 ^ bias < 2 ^ (971 + bias)).
  { eapply Z.lt_trans; [apply (int_scaled_bound z 60); lia |].
    apply pow2_lt_mono. unfold bias. lia. }
  assert (H2 : 0 <= Z.abs z * 2 ^ bias) by (pose proof (Z.abs_nonneg z); nia).
  set (A := Z.abs z * 2 ^ bias) in *. set (T := 2 ^ (971 + bias)) in *.
  set (B := 2 ^ bias) in *. nia.
Qed.

(** The product that [formatBrightness] and the ramp take: an integer
    multiple of a fraction between zero and one. *)
Lemma mul_int_value (x k : number) (z : Z) :
  regular x -> sval x = z * 2 ^ bias -> Z.abs z < 2 ^ 60 ->
  regular k -> 0 <= sval k <= 2 ^ bias ->
  regular (mul x k) /\ sval (mul x k) = round (z * sval k) /\
  sign (mul x k) = xorb (sign x) (sign k).
Proof.
  intros Hx Hv Hz Hk Hkb. pose proof bias_pos as HB.
  pose proof (mul_value x k Hx Hk) as Hm. rewrite Hv in Hm.
  destruct (Hm (product_bound z (sval k) Hz Hkb)) as (HF & Hval & Hs).
  split; [exact HF |]. split; [| exact Hs].
  rewrite Hval. f_equal.
  replace (z * 2 ^ bias * sval k) with (z * sval k * 2 ^ bias) by ring.
  apply Z.div_mul. lia.
Qed.

Lemma mul_frac_value (k x : number) (z : Z) :
  regular k -> 0 <= sval k <= 2 ^ bias ->
  regular x -> sval x = z * 2 ^ bias -> Z.abs z < 2 ^ 60 ->
  regular (mul k x) /\ sval (mul k x) = round (sval k * z) /\
  sign (mul k x) = xorb (sign k) (sign x).
Proof.
  intros Hk Hkb Hx Hv Hz. pose proof bias_pos as HB.
  pose proof (mul_value k x Hk Hx) as Hm. rewrite Hv in Hm.
  assert (Hlt : Z.abs (sval k * (z * 2 ^ bias)) < 2 ^ (971 + bias) * 2 ^ bias).
  { replace (sval k * (z * 2 ^ bias)) with (z * 2 ^ bias * sval k) by ring.
    now apply product_bound. }
  destruct (Hm Hlt) as (HF & Hval & Hs).
  split; [exact HF |]. split; [| exact Hs].
  rewrite Hval. f_equal.
  replace (sval k * (z * 2 ^ bias)) with (sval k * z * 2 ^ bias) by ring.
  apply Z.div_mul. lia.
Qed.

(** [Math.round] of a number whose value lies between two integers. *)
Lemma Math_round_between (x : number) (lo hi : Z) :
  regular x -> lo * 2 ^ bias <= sval x <= hi * 2 ^ bias ->
  lo <= half_up (sval x) <= hi /\
  Math_round x =
    if half_up (sval x) =? 0 then S754_zero (sign x) else of_Z (half_up (sval x)).
Proof.
  intros HF [Hlo Hhi]. split; [| now apply Math_round_value].
  split.
  - rewrite <- (half_up_int lo). now apply half_up_mono.
  - rewrite <- (half_up_int hi). now apply half_up_mono.
Qed.

(** The last steps of the target: [255 - n], floored at one. *)
Lemma target_of_rounded (n : Z) :
  1 <= n <= 255 ->
  Math_max (sub (of_Z 255) (of_Z n)) (of_Z 1) = of_Z (Z.max (255 - n) 1).
Proof.
  intros Hn.
  assert (Hall : forallb (fun n => number_eqb
                                     (Math_max (sub (of_Z 255) (of_Z n)) (of_Z 1))
                                     (of_Z (Z.max (255 - n) 1)))
                   (upto 1 255) = true) by (vm_compute; reflexivity).
  rewrite forallb_forall in Hall.
  apply number_eqb_eq, Hall, upto_In. lia.
Qed.

(** The target of the ramp is an integer between 1 and 255. *)
Lemma target_value (b : number) :
  valid_binary prec emax b = true ->
  leb (of_Z 0) b = true -> leb b (of_Z 1) = true ->
  exists t, 1 <= t <= 255 /\ Math_max (formatBrightness b) (of_Z 1) = of_Z t.
Proof.
  intros Hvalid H0 H1. pose proof bias_pos as HB.
  destruct (unit_interval b Hvalid H0 H1) as (Hb & Hb0 & Hb1).
  destruct (of_Z_value 255 ltac:(cbn; lia)) as (H255 & Hv255 & _).
  destruct (mul_frac_value b (of_Z 255) 255 Hb (conj Hb0 Hb1) H255 Hv255 ltac:(cbn; lia))
    as (HF & Hval & _).
  assert (Hrange : 0 * 2 ^ bias <= sval (mul b (of_Z 255)) <= 255 * 2 ^ bias).
  { rewrite Hval. split.
    - rewrite Z.mul_0_l, <- round_zero. apply round_mono. lia.
    - rewrite <- (round_int 255) by (cbn; lia). apply round_mono. nia. }
  destruct (Math_round_between _ 0 255 HF Hrange) as (Hn & Hround).
  unfold formatBrightness. rewrite Hround.
  set (n := half_up (sval (mul b (of_Z 255)))) in *.
  destruct (Z.eqb_spec n 0) as [Hz | Hnz].
  - exists 255. split; [lia |].
    destruct (sign (mul b (of_Z 255))); vm_compute; reflexivity.
  - exists (Z.max (255 - n) 1). split; [lia |]. apply target_of_rounded. lia.
Qed.


(** *** The ramp on integers *)

Lemma kstep_mono (i j : Z) :
  1 <= i -> i <= j -> j <= 10 -> sval (kstep i) <= sval (kstep j).
Proof.
  intros Hi Hij Hj.
  remember (Z.to_nat (j - i)) as n eqn:Hn. revert i Hi Hij Hn.
  induction n as [|n IH]; intros i Hi Hij Hn.
  - replace j with i by lia. lia.
  - destruct (kstep_props i ltac:(lia)) as (_ & _ & Hstep & _).
    rewrite Z.min_r in Hstep by lia.
    etransitivity; [exact Hstep |]. apply IH; lia.
Qed.

(** The scaled value the ramp rounds to an integer at step [i]. *)
Lemma ramp_scaled_bounds (c t k : Z) :
  Z.abs c < 2 ^ 53 -> Z.abs t < 2 ^ 53 -> Z.abs (t - c) < 2 ^ 53 ->
  0 <= k <= 2 ^ bias ->
  Z.min c t * 2 ^ bias <= round (c * 2 ^ bias + round ((t - c) * k)) <= Z.max c t * 2 ^ bias.
Proof.
  intros Hc Ht Hd Hk. pose proof bias_pos as HB.
  assert (Hp : Z.min 0 (t - c) * 2 ^ bias <= round ((t - c) * k) <= Z.max 0 (t - c) * 2 ^ bias).
  { destruct (Z.le_gt_cases 0 (t - c)) as [Hpos | Hneg].
    - rewrite Z.min_l, Z.max_r by lia. split.
      + rewrite Z.mul_0_l, <- round_zero. apply round_mono. nia.
      + rewrite <- (round_int (t - c)) by assumption. apply round_mono. nia.
    - rewrite Z.min_r, Z.max_l by lia. split.
      + rewrite <- (round_int (t - c)) by assumption. apply round_mono. nia.
      + rewrite Z.mul_0_l, <- round_zero. apply round_mono. nia. }
  split.
  - rewrite <- (round_int (Z.min c t)) by lia. apply round_mono. nia.
  - rewrite <- (round_int (Z.max c t)) by lia. apply round_mono. nia.
Qed.

(** Every step lies between the current value and the target. *)
Lemma ramp_int_bounds (c t i : Z) :
  0 <= c < 2 ^ 53 -> 0 <= t < 2 ^ 53 -> 1 <= i <= 10 ->
  Z.min c t <= ramp_int c t i <= Z.max c t.
Proof.
  intros Hc Ht Hi. destruct (kstep_props i Hi) as (_ & Hk & _).
  pose proof (ramp_scaled_bounds c t (sval (kstep i))
                ltac:(lia) ltac:(lia) ltac:(lia) Hk) as [Hlo Hhi].
  unfold ramp_int. split.
  - rewrite <- (half_up_int (Z.min c t)). now apply half_up_mono.
  - rewrite <- (half_up_int (Z.max c t)). now apply half_up_mono.
Qed.

(** The steps go one way. *)
Lemma ramp_int_mono (c t i j : Z) :
  1 <= i -> i <= j -> j <= 10 ->
  (c <= t -> ramp_int c t i <= ramp_int c t j) /\
  (t <= c -> ramp_int c t j <= ramp_int c t i).
Proof.
  intros Hi Hij Hj. pose proof (kstep_mono i j Hi Hij Hj) as Hk.
  unfold ramp_int. split; intros Hct; apply half_up_mono, round_mono;
    apply Z.add_le_mono_l, round_mono; nia.
Qed.

(** The last step is the target. *)
Lemma ramp_int_last (c t : Z) :
  0 <= c < 2 ^ 53 -> 0 <= t < 2 ^ 53 -> ramp_int c t 10 = t.
Proof.
  intros Hc Ht. unfold ramp_int.
  destruct (kstep_props 10 ltac:(lia)) as (_ & _ & _ & Hlast).
  rewrite (Hlast eq_refl), round_int by lia.
  replace (c * 2 ^ bias + (t - c) * 2 ^ bias) with (t * 2 ^ bias) by ring.
  rewrite round_int by lia. apply half_up_int.
Qed.

(** What the ramp computes at step [i] is the number of [ramp_int]. *)
Lemma ramp_value_int (c t i : Z) :
  0 <= c < 2 ^ 53 -> 0 <= t < 2 ^ 53 -> 1 <= i <= 10 ->
  ramp_value (of_Z c) (of_Z t) i = of_Z (ramp_int c t i).
Proof.
  intros Hc Ht Hi. pose proof bias_pos as HB.
  destruct (of_Z_value c ltac:(lia)) as (HFc & Hvc & Hsc).
  destruct (of_Z_value t ltac:(lia)) as (HFt & Hvt & _).
  destruct (kstep_props i Hi) as (HFk & Hk & _).
  assert (Hbig : 2 ^ 54 * 2 ^ bias < 2 ^ (971 + bias)).
  { rewrite <- Z.pow_add_r by (unfold bias; lia). apply pow2_lt_mono. unfold bias. lia. }
  (* the difference *)
  destruct (sub_value (of_Z t) (of_Z c) HFt HFc) as (HFd & Hvd).
  { rewrite Hvt, Hvc, <- Z.mul_sub_distr_r, Z.abs_mul, (Z.abs_eq (2 ^ bias)) by lia.
    assert (Z.abs (t - c) < 2 ^ 54) by lia. nia. }
  rewrite Hvt, Hvc, <- Z.mul_sub_distr_r, round_int in Hvd by lia.
  (* the product *)
  destruct (mul_int_value (sub (of_Z t) (of_Z c)) (kstep i) (t - c) HFd Hvd
              ltac:(lia) HFk Hk) as (HFp & Hvp & _).
  (* the sum *)
  pose proof (ramp_scaled_bounds c t (sval (kstep i))
                ltac:(lia) ltac:(lia) ltac:(lia) Hk) as Hbounds.
  assert (Hp : Z.min 0 (t - c) * 2 ^ bias
               <= sval (mul (sub (of_Z t) (of_Z c)) (kstep i))
               <= Z.max 0 (t - c) * 2 ^ bias).
  { rewrite Hvp. destruct (Z.le_gt_cases 0 (t - c)) as [Hpos | Hneg].
    - rewrite Z.min_l, Z.max_r by lia. split.
      + rewrite Z.mul_0_l, <- round_zero. apply round_mono. nia.
      + rewrite <- (round_int (t - c)) by lia. apply round_mono. nia.
    - rewrite Z.min_r, Z.max_l by lia. split.
      + rewrite <- (round_int (t - c)) by lia. apply round_mono. nia.
      + rewrite Z.mul_0_l, <- round_zero. apply round_mono. nia. }
  destruct (add_value (of_Z c) (mul (sub (of_Z t) (of_Z c)) (kstep i)) HFc HFp)
    as (HFs & Hvs & Hss).
  { rewrite Hvc. set (p := sval (mul (sub (of_Z t) (of_Z c)) (kstep i))) in *.
    assert (Z.abs (c * 2 ^ bias + p) <= 2 ^ 54 * 2 ^ bias) by nia. lia. }
  rewrite Hvc, Hvp in Hvs.
  assert (Hsign : sign (add (of_Z c) (mul (sub (of_Z t) (of_Z c)) (kstep i))) = false).
  { apply Hss; [apply Hsc; lia |]. rewrite Hvc. nia. }
  (* the rounding to an integer *)
  unfold ramp_value. fold (kstep i).
  rewrite Math_round_value by assumption. rewrite Hvs, Hsign.
  fold (ramp_int c t i).
  destruct (Z.eqb_spec (ramp_int c t i) 0) as [-> | _]; reflexivity.
Qed.

(** ** The brightness transform *)

(** C2: for every raw value from 0 to 255, read back as any text that
    [parseInt] reads as that value, formatting the parsed brightness gives
    an integer at most 1 away from the raw value; raw 0 parses to 1.0 and
    raw 255 to 0.0. *)
Theorem brightness_round_trip :
  (forall (raw : Z) (s : string),
     0 <= raw <= 255 -> parseInt s = of_Z raw ->
     exists z,
       to_Z (formatBrightness (parseBrightness s)) = Some z /\ Z.abs (z - raw) <= 1) /\
  parseBrightness "0" = of_Z 1 /\
  parseBrightness "255" = of_Z 0.
Proof.
  split; [| split; vm_compute; reflexivity].
  intros raw s Hraw Hs. unfold parseBrightness. rewrite Hs.
  assert (Hall : forallb
                   (fun raw =>
                      match to_Z (formatBrightness
                                    (sub (of_Z 1) (div (of_Z raw) (of_Z 255)))) with
                      | Some z => Z.abs (z - raw) <=? 1
                      | None => false
                      end)
                   (upto 0 256) = true) by (vm_compute; reflexivity).
  rewrite forallb_forall in Hall.
  specialize (Hall raw ltac:(apply upto_In; lia)).
  destruct (to_Z (formatBrightness (sub (of_Z 1) (div (of_Z raw) (of_Z 255)))))
    as [z |]; [| discriminate].
  exists z. split; [reflexivity | now apply Z.leb_le].
Qed.

Lemma brightness_round_trip_witness :
  exists z,
    to_Z (formatBrightness (parseBrightness "128")) = Some z /\ Z.abs (z - 128) <= 1.
Proof.
  apply (proj1 brightness_round_trip 128 "128"%string); [lia | reflexivity].
Defined.

(** ** The smooth ramp *)

Lemma for_of_execAsync {A} (H : host) (cmd : A -> string) (xs : list A) (h : history) :
  for_of xs (fun x => execAsync H (cmd x) ;; ret tt) h =
    (Returned tt, h ++ map (fun x => Exec (cmd x)) xs).
Proof.
  revert h. induction xs as [|x r IH]; intros h; cbn [for_of map].
  - unfold ret. now rewrite app_nil_r.
  - unfold bind at 1. unfold bind at 1. unfold execAsync at 1. cbn [ret].
    rewrite IH, <- app_assoc. reflexivity.
Qed.

(** What a ramp does once the device and the executable are resolved:
    one read of the register, then one write per step. *)
Lemma setBrightnessSmooth_trace
    (H : host) (device found : nullable) (h h0 h1 h2 : history)
    (adb adb' : string) (brightness : number) :
  resolve H device h = (Returned found, h0) ->
  falsy found = false ->
  getAdbExecutable H h0 = (Returned adb, h1) ->
  getAdbExecutable H h1 = (Returned adb', h2) ->
  let read := cat_brightness_cmd adb' (text found) in
  let currentValue := parseInt (text (exec_reply H h2 read)) in
  let targetValue := Math_max (formatBrightness brightness) (of_Z 1) in
  setBrightnessSmooth H device brightness h =
    (Returned tt,
     (h2 ++ [Exec read])
     ++ map (fun i => Exec (echo_brightness H adb (text found)
                              (ramp_value currentValue targetValue i)))
          (upto 1 10)).
Proof.
  intros Hfound Hf Hadb Hadb'. cbv zeta.
  unfold setBrightnessSmooth. fold (resolve H device).
  rewrite (bind_returned _ _ _ _ _ Hfound), Hf.
  rewrite (bind_returned _ _ _ _ _ Hadb).
  assert (Hget : getBrightness H found false h1 =
                 (Returned (parseInt (text (exec_reply H h2
                                              (cat_brightness_cmd adb' (text found))))),
                  h2 ++ [Exec (cat_brightness_cmd adb' (text found))])).
  { unfold getBrightness. rewrite Hf, bind_ret, Hf.
    rewrite (bind_returned _ _ _ _ _ Hadb').
    unfold bind, execAsync, ret. reflexivity. }
  rewrite (bind_returned _ _ _ _ _ Hget).
  change (Z.to_nat steps) with 10%nat.
  apply (for_of_execAsync H
           (fun i => echo_brightness H adb (text found)
                       (ramp_value _ _ i))).
Qed.

Lemma nth_upto (lo : Z) (n i : nat) (d : Z) :
  (i < n)%nat -> nth i (upto lo n) d = lo + Z.of_nat i.
Proof.
  revert lo i. induction n as [|n IH]; intros lo i Hi; [lia |].
  destruct i as [|i]; cbn [upto nth]; [lia |].
  rewrite IH by lia. lia.
Qed.

Lemma length_upto (lo : Z) (n : nat) : List.length (upto lo n) = n.
Proof. revert lo. induction n as [|n IH]; intros lo; cbn [upto List.length]; congruence. Qed.

(** C1: for a normalized brightness (a valid number between 0 and 1) and
    a register that reads back as a nonnegative integer, a ramp issues
    exactly 10 write commands after its read, whatever the distance between
    the current and the target value, and the 10th writes
    [Math.max(formatBrightness(brightness), 1)]. *)
Theorem setBrightnessSmooth_ten_writes
    (H : host) (device found : nullable) (h h0 h1 h2 : history)
    (adb adb' : string) (brightness : number) (c : Z) :
  resolve H device h = (Returned found, h0) ->
  falsy found = false ->
  getAdbExecutable H h0 = (Returned adb, h1) ->
  getAdbExecutable H h1 = (Returned adb', h2) ->
  parseInt (text (exec_reply H h2 (cat_brightness_cmd adb' (text found)))) = of_Z c ->
  0 <= c < 2 ^ 53 ->
  valid_binary prec emax brightness = true ->
  leb (of_Z 0) brightness = true -> leb brightness (of_Z 1) = true ->
  exists values : list number,
    setBrightnessSmooth H device brightness h =
      (Returned tt,
       (h2 ++ [Exec (cat_brightness_cmd adb' (text found))])
       ++ map (fun v => Exec (echo_brightness H adb (text found) v)) values) /\
    List.length values = 10%nat /\
    nth 9 values NaN = Math_max (formatBrightness brightness) (of_Z 1).
Proof.
  intros Hfound Hf Hadb Hadb' Hcur Hc Hvalid Hb0 Hb1.
  destruct (target_value brightness Hvalid Hb0 Hb1) as (t & Ht & Htarget).
  exists (map (ramp_value (of_Z c) (of_Z t)) (upto 1 10)).
  rewrite (setBrightnessSmooth_trace H device found h h0 h1 h2 adb adb' brightness
             Hfound Hf Hadb Hadb').
  rewrite Hcur, Htarget, map_map.
  split; [reflexivity |]. split; [reflexivity |].
  change (nth 9 (map (ramp_value (of_Z c) (of_Z t)) (upto 1 10)) NaN)
    with (ramp_value (of_Z c) (of_Z t) 10).
  rewrite ramp_value_int, ramp_int_last by lia. reflexivity.
Qed.

(** C10: when the register reads back as the integer [c] and the target is
    the integer [t], the 10 values a ramp writes are integers between
    [min c t] and [max c t]; they never decrease when [c <= t] and never
    increase when [t <= c]. *)
Theorem setBrightnessSmooth_ramp_monotone
    (H : host) (device found : nullable) (h h0 h1 h2 : history)
    (adb adb' : string) (brightness : number) (c t : Z) :
  resolve H device h = (Returned found, h0) ->
  falsy found = false ->
  getAdbExecutable H h0 = (Returned adb, h1) ->
  getAdbExecutable H h1 = (Returned adb', h2) ->
  parseInt (text (exec_reply H h2 (cat_brightness_cmd adb' (text found)))) = of_Z c ->
  Math_max (formatBrightness brightness) (of_Z 1) = of_Z t ->
  0 <= c < 2 ^ 53 -> 0 <= t < 2 ^ 53 ->
  exists ns : list Z,
    setBrightnessSmooth H device brightness h =
      (Returned tt,
       (h2 ++ [Exec (cat_brightness_cmd adb' (text found))])
       ++ map (fun n => Exec (echo_brightness H adb (text found) (of_Z n))) ns) /\
    List.length ns = 10%nat /\
    Forall (fun n => to_Z (of_Z n) = Some n /\ Z.min c t <= n <= Z.max c t) ns /\
    (c <= t -> forall i j, (i <= j < 10)%nat -> nth i ns 0 <= nth j ns 0) /\
    (t <= c -> forall i j, (i <= j < 10)%nat -> nth j ns 0 <= nth i ns 0).
Proof.
  intros Hfound Hf Hadb Hadb' Hcur Htarget Hc Ht.
  exists (map (ramp_int c t) (upto 1 10)).
  rewrite (setBrightnessSmooth_trace H device found h h0 h1 h2 adb adb' brightness
             Hfound Hf Hadb Hadb').
  rewrite Hcur, Htarget, map_map.
  assert (Hnth : forall i, (i < 10)%nat ->
                 nth i (map (ramp_int c t) (upto 1 10)) 0 = ramp_int c t (1 + Z.of_nat i)).
  { intros i Hi.
    rewrite (nth_indep _ 0 (ramp_int c t 0)) by (rewrite length_map, length_upto; lia).
    rewrite map_nth, nth_upto by lia. reflexivity. }
  split; [| split; [reflexivity | split; [| split]]].
  - f_equal. f_equal. apply map_ext_in. intros i Hi. apply upto_In in Hi.
    rewrite ramp_value_int by lia. reflexivity.
  - apply Forall_forall. intros n Hn. apply in_map_iff in Hn.
    destruct Hn as (i & <- & Hi). apply upto_In in Hi.
    pose proof (ramp_int_bounds c t i Hc Ht ltac:(lia)) as Hb.
    split; [apply to_Z_of_Z; lia | exact Hb].
  - intros Hct i j Hij. rewrite !Hnth by lia.
    apply (ramp_int_mono c t (1 + Z.of_nat i) (1 + Z.of_nat j)); lia.
  - intros Hct i j Hij. rewrite !Hnth by lia.
    apply (ramp_int_mono c t (1 + Z.of_nat i) (1 + Z.of_nat j)); lia.
Qed.

Lemma setBrightnessSmooth_ten_writes_witness :
  let H := backlight_host "CT1" (Some "200"%string) in
  exists values : list number,
    setBrightnessSmooth H (Some "CT1"%string) one_half [] =
      (Returned tt,
       ([Exec version_cmd; Exec version_cmd] ++ [Exec (cat_brightness_cmd "adb" "CT1")])
       ++ map (fun v => Exec (echo_brightness H "adb" "CT1" v)) values) /\
    List.length values = 10%nat /\
    nth 9 values NaN = Math_max (formatBrightness one_half) (of_Z 1).
Proof.
  cbv zeta.
  apply (setBrightnessSmooth_ten_writes
           (backlight_host "CT1" (Some "200"%string))
           (Some "CT1"%string) (Some "CT1"%string)
           [] [] [Exec version_cmd] [Exec version_cmd; Exec version_cmd]
           "adb" "adb" one_half 200);
    try reflexivity.
  lia.
Defined.

Lemma setBrightnessSmooth_ramp_monotone_witness :
  let H := backlight_host "CT1" (Some "200"%string) in
  exists ns : list Z,
    setBrightnessSmooth H (Some "CT1"%string) one_half [] =
      (Returned tt,
       ([Exec version_cmd; Exec version_cmd] ++ [Exec (cat_brightness_cmd "adb" "CT1")])
       ++ map (fun n => Exec (echo_brightness H "adb" "CT1" (of_Z n))) ns) /\
    List.length ns = 10%nat /\
    Forall (fun n => to_Z (of_Z n) = Some n /\ Z.min 200 127 <= n <= Z.max 200 127) ns /\
    (200 <= 127 -> forall i j, (i <= j < 10)%nat -> nth i ns 0 <= nth j ns 0) /\
    (127 <= 200 -> forall i j, (i <= j < 10)%nat -> nth j ns 0 <= nth i ns 0).
Proof.
  cbv zeta.
  apply (setBrightnessSmooth_ramp_monotone
           (backlight_host "CT1" (Some "200"%string))
           (Some "CT1"%string) (Some "CT1"%string)
           [] [] [Exec version_cmd] [Exec version_cmd; Exec version_cmd]
           "adb" "adb" one_half 200 127);
    try reflexivity; lia.
Defined.

(** The ramp of the witness, run: from 200 down to 127 (0.5 formats to
    127), and the commands carry these values in decimal. *)
Example ramp_200_to_127 :
  map (fun i => to_Z (ramp_value (of_Z 200) (of_Z 127) i)) (upto 1 10)
  = map Some [193; 185; 178; 171; 164; 156; 149; 142; 134; 127].
Proof. vm_compute. reflexivity. Qed.

(** Rounding is that of binary64, not of the rationals: from 0 to 45 the
    seventh step is [Math.round(31.499999999999996)], which is 31, where
    the exact product [45 * 7 / 10 = 31.5] would round to 32. *)
Example ramp_0_to_45 :
  map (fun i => to_Z (ramp_value (of_Z 0) (of_Z 45) i)) (upto 1 10)
  = map Some [5; 9; 14; 18; 23; 27; 31; 36; 41; 45].
Proof. vm_compute. reflexivity. Qed.

(** The same ramp as command lines, on a host that prints numbers in
    decimal: after the two version checks and the read, ten writes. *)
Example ramp_commands :
  let H := backlight_host "CT1" (Some "200"%string) in
  skipn 3 (snd (setBrightnessSmooth H (Some "CT1"%string) one_half [])) =
    map (fun v => Exec ("adb -s CT1 shell "
                        +++ quoted ("echo " +++ v +++ " > " +++ sysfs_brightness)))
      ["193"; "185"; "178"; "171"; "164"; "156"; "149"; "142"; "134"; "127"]%string.
Proof. vm_compute. reflexivity. Qed.

(** A ramp without an identifier: the device is discovered first, and the
    ten writes follow as before. *)
Example ramp_after_discovery :
  let H := carthing_host "CT1" (Some "55"%string) in
  let run := setBrightnessSmooth H None (of_Z 1) [] in
  fst run = Returned tt /\
  hd_error (snd run) = Some finding /\
  brightness_writes (snd run) =
    map (fun v => "adb -s CT1 shell "
                  +++ quoted ("echo " +++ v +++ " > " +++ sysfs_brightness))
      ["50"; "44"; "39"; "33"; "28"; "23"; "17"; "12"; "6"; "1"]%string.
Proof. vm_compute. repeat split. Qed.

(** ** The device listing *)

(** C3, as the code has it: with the listing's lines given, [getDevices]
    returns, in the listing's order, the text before the first tab of
    exactly those lines in which a tab followed by [device] occurs
    anywhere; for the lines [X<tab>device], [Y<tab>unauthorized],
    [Z<tab>device] that is [X; Z]. *)
Theorem getDevices_keeps_tab_device_lines
    (H : host) (h h1 : history) (adb : string) (lines : list string) :
  getAdbExecutable H h = (Returned adb, h1) ->
  lines <> [] ->
  Forall (fun line => mem newline line = false) lines ->
  exec_reply H h1 (devices_cmd adb) = Some (join newline lines) ->
  exists ds,
    getDevices H h = (Returned ds, h1 ++ [Exec (devices_cmd adb)]) /\
    listed lines ds /\
    (lines = example_lines -> ds = ["X"; "Z"]%string).
Proof.
  intros Hadb Hne Hlines Hout.
  rewrite (getDevices_listing H h h1 adb _ Hadb Hout), split_join by assumption.
  eexists. split; [reflexivity |]. split; [apply listed_filter_map |].
  intros ->. reflexivity.
Qed.

Lemma getDevices_keeps_tab_device_lines_witness :
  exists ds,
    getDevices (listing_host example_lines) [] =
      (Returned ds, [Exec version_cmd] ++ [Exec (devices_cmd "adb")]) /\
    listed example_lines ds /\
    (example_lines = example_lines -> ds = ["X"; "Z"]%string).
Proof.
  apply (getDevices_keeps_tab_device_lines
           (listing_host example_lines) [] [Exec version_cmd] "adb" example_lines).
  - reflexivity.
  - discriminate.
  - repeat constructor.
  - reflexivity.
Defined.

(** C3, refuted as worded: on a listing with the lines [A<tab>device],
    [B<tab>devices] and [C<tab>offline<tab>device], only the first line has
    the state field [device], yet [getDevices] returns all three
    identifiers. *)
Lemma getDevices_not_by_state_field :
  let H := listing_host lenient_lines in
  exec_reply H [Exec version_cmd] (devices_cmd "adb") = Some (join newline lenient_lines) /\
  listDevices_by_state (join newline lenient_lines) = ["A"]%string /\
  fst (getDevices H []) = Returned ["A"; "B"; "C"]%string /\
  fst (getDevices H []) <> Returned (listDevices_by_state (join newline lenient_lines)).
Proof. cbv zeta. repeat split; try reflexivity. vm_compute. discriminate. Qed.

(** ** Validating a candidate *)

(** C4, as the code has it: [checkValidDevice] returns true if and only if
    the listing of the web-app directory holds the text [index.html]; the
    install marker plays no part. *)
Theorem checkValidDevice_looks_for_index_html
    (H : host) (h h1 : history) (adb device res : string) :
  getAdbExecutable H h = (Returned adb, h1) ->
  exec_reply H h1 (ls_webapp_cmd adb device) = Some res ->
  exists valid,
    checkValidDevice H device h =
      (Returned valid, h1 ++ [Exec (ls_webapp_cmd adb device)]) /\
    (valid = true <-> occurs "index.html" res).
Proof.
  intros Hadb Hres.
  rewrite (checkValidDevice_listing H h h1 adb device res Hadb Hres).
  eexists. split; [reflexivity | apply includes_spec].
Qed.

Lemma checkValidDevice_looks_for_index_html_witness :
  exists valid,
    checkValidDevice (device_host "CT1" (Some "index.html"%string) None) "CT1" [] =
      (Returned valid, [Exec version_cmd] ++ [Exec (ls_webapp_cmd "adb" "CT1")]) /\
    (valid = true <-> occurs "index.html" "index.html").
Proof.
  apply (checkValidDevice_looks_for_index_html
           (device_host "CT1" (Some "index.html"%string) None)
           [] [Exec version_cmd] "adb" "CT1" "index.html");
    reflexivity.
Defined.

(** C4, refuted as worded: a stock device, whose web-app directory lists
    [index.html] and no marker file, is valid; a directory that lists only
    the marker file is not. *)
Lemma checkValidDevice_ignores_marker :
  let stock := device_host "CT1" (Some "index.html"%string) None in
  let odd := device_host "CT1" (Some marker_name) None in
  includes "index.html" marker_name = false /\
  fst (checkValidDevice stock "CT1" []) = Returned true /\
  includes marker_name marker_name = true /\
  fst (checkValidDevice odd "CT1" []) = Returned false.
Proof. cbv zeta. repeat split; reflexivity. Qed.

(** ** The provisioning cache *)

(** C5, as the code has it: once the executable is installed at its
    per-user path, a call runs the version check and nothing else (no HTTP
    request); it returns the bare name [adb] when the version check
    succeeds on a host that is not darwin, and the quoted install path, by
    the cache-hit branch, otherwise. *)
Theorem getAdbExecutable_installed_no_request (H : host) (h : history) :
  file_exists H (h ++ [Exec version_cmd]) (install_path H) = true ->
  getAdbExecutable H h =
    (Returned (if negb (falsy (exec_reply H h version_cmd))
                  && negb (String.eqb (platform H) "darwin")
               then "adb"%string else quoted (install_path H)),
     h ++ [Exec version_cmd]).
Proof.
  intros Hfile.
  destruct (falsy (exec_reply H h version_cmd)) eqn:Hres.
  - apply getAdbExecutable_cached; auto.
  - destruct (String.eqb (platform H) "darwin") eqn:Hos.
    + apply getAdbExecutable_cached; auto.
    + now apply getAdbExecutable_fast.
Qed.

(** A first call provisions the executable, with one HTTP request. *)
Example first_call_provisions (adb_later : bool) :
  getAdbExecutable (provisioning_host "linux" adb_later) [] =
    (Returned (quoted "/data/platform-tools/adb"),
     [Exec version_cmd;
      Log "Downloading ADB..." "adb" None;
      HttpGet "https://example.invalid/platform-tools.zip";
      WriteStream "/tmp/platform-tools-glancething-temp.zip";
      Log "Downloaded ADB!" "adb" None;
      Exec ("tar -xf /tmp/platform-tools-glancething-temp.zip -C " +++ quoted "/data");
      Log "Extracted ADB!" "adb" None]).
Proof. destruct adb_later; reflexivity. Qed.

Lemma getAdbExecutable_installed_no_request_witness :
  let H := provisioning_host "linux" false in
  let h := snd (getAdbExecutable H []) in
  getAdbExecutable H h =
    (Returned (quoted "/data/platform-tools/adb"), h ++ [Exec version_cmd]).
Proof.
  cbv zeta.
  apply (getAdbExecutable_installed_no_request
           (provisioning_host "linux" false)
           (snd (getAdbExecutable (provisioning_host "linux" false) []))).
  reflexivity.
Defined.

(** C5, refuted as worded: on a Linux host a first call provisions the
    executable; [adb] is then installed system-wide; the next call finds
    the installed file in place, yet returns the bare name by the fast
    path, not the quoted install path. *)
Lemma getAdbExecutable_installed_fast_path :
  let H := provisioning_host "linux" true in
  let h := snd (getAdbExecutable H []) in
  fst (getAdbExecutable H []) = Returned (quoted (install_path H)) /\
  In (HttpGet (downloadURL H)) h /\
  file_exists H (h ++ [Exec version_cmd]) (install_path H) = true /\
  getAdbExecutable H h = (Returned "adb"%string, h ++ [Exec version_cmd]) /\
  fst (getAdbExecutable H h) <> Returned (quoted (install_path H)).
Proof.
  cbv zeta. split; [reflexivity |]. split; [vm_compute; tauto |].
  split; [reflexivity |]. split; [reflexivity |]. vm_compute. discriminate.
Qed.

(** ** The install marker *)

(** C6: for a listing of the marker path that succeeded,
    [checkInstalledApp] returns false when the text "No such file or
    directory" occurs in it and true for every other listing. *)
Theorem checkInstalledApp_reads_listing
    (H : host) (device found : nullable) (h h0 h1 : history) (adb res : string) :
  resolve H device h = (Returned found, h0) ->
  falsy found = false ->
  getAdbExecutable H h0 = (Returned adb, h1) ->
  exec_reply H h1 (ls_marker_cmd adb (text found)) = Some res ->
  (occurs "No such file or directory" res ->
   checkInstalledApp H device h =
     (Returned false, h1 ++ [Exec (ls_marker_cmd adb (text found))])) /\
  (~ occurs "No such file or directory" res ->
   checkInstalledApp H device h =
     (Returned true, h1 ++ [Exec (ls_marker_cmd adb (text found))])).
Proof.
  intros Hfound Hf Hadb Hres.
  assert (Hrun : checkInstalledApp H device h =
                 (Returned (negb (includes res "No such file or directory")),
                  h1 ++ [Exec (ls_marker_cmd adb (text found))])).
  { unfold checkInstalledApp. fold (resolve H device).
    rewrite (bind_returned _ _ _ _ _ Hfound), Hf.
    rewrite (bind_returned _ _ _ _ _ Hadb).
    unfold bind, execAsync. fold (ls_marker_cmd adb (text found)).
    now rewrite Hres. }
  rewrite Hrun. split; intros Hocc.
  - apply includes_spec in Hocc. now rewrite Hocc.
  - apply includes_false in Hocc. now rewrite Hocc.
Qed.

Lemma checkInstalledApp_reads_listing_witness :
  let H := device_host "CT1" (Some "index.html"%string)
             (Some "ls: /usr/share/qt-superbird-app/webapp/.glancething: No such file or directory"%string) in
  checkInstalledApp H (Some "CT1"%string) [] =
    (Returned false, [Exec version_cmd] ++ [Exec (ls_marker_cmd "adb" "CT1")]).
Proof.
  cbv zeta.
  refine (proj1 (checkInstalledApp_reads_listing _ (Some "CT1"%string) (Some "CT1"%string)
                   [] [] [Exec version_cmd] "adb" _ _ _ _ _) _);
    try reflexivity.
  apply includes_spec. reflexivity.
Defined.

(** ** Finding the device *)

(** C7: when the listing yields no device, [findCarThing] returns null:
    after the listing it only logs that nothing was found, so it runs no
    validation command and throws nothing. *)
Theorem findCarThing_no_candidates (H : host) (h h' : history) :
  getDevices H (h ++ [finding]) = (Returned [], h') ->
  findCarThing H h =
    (Returned None, h' ++ [Log "No valid CarThing found" "adb" (Some WARN)]).
Proof.
  intros Hds. unfold findCarThing, bind at 1, log, emit. fold finding.
  now rewrite (bind_returned _ _ _ _ _ Hds).
Qed.

Lemma findCarThing_no_candidates_witness :
  findCarThing (listing_host ["List of devices attached"%string]) [] =
    (Returned None,
     ([finding] ++ [Exec version_cmd] ++ [Exec (devices_cmd "adb")])
     ++ [Log "No valid CarThing found" "adb" (Some WARN)]).
Proof.
  apply (findCarThing_no_candidates
           (listing_host ["List of devices attached"%string]) []).
  reflexivity.
Defined.

(** C9: when the device-list command fails, [findCarThing] throws (a
    [TypeError], from splitting null) instead of returning null; and when
    it does return null, the device-list command had succeeded. *)
Theorem findCarThing_listing_failure_throws (H : host) (h : history) :
  (forall adb h1,
     getAdbExecutable H (h ++ [finding]) = (Returned adb, h1) ->
     exec_reply H h1 (devices_cmd adb) = None ->
     findCarThing H h = (Thrown TypeError, h1 ++ [Exec (devices_cmd adb)])) /\
  (forall h',
     findCarThing H h = (Returned None, h') ->
     exists adb h1 out,
       getAdbExecutable H (h ++ [finding]) = (Returned adb, h1) /\
       exec_reply H h1 (devices_cmd adb) = Some out).
Proof.
  split.
  - intros adb h1 Hadb Hout.
    unfold findCarThing, bind at 1, log, emit. fold finding.
    now rewrite (bind_thrown _ _ _ _ _ (getDevices_failure H _ h1 adb Hadb Hout)).
  - intros h'. unfold findCarThing, bind at 1, log, emit. fold finding.
    unfold bind at 1.
    destruct (getDevices H (h ++ [finding])) as [[ds|e] h1] eqn:Hds; [| discriminate].
    intros _. exact (getDevices_returned H _ _ _ Hds).
Qed.

Lemma findCarThing_listing_failure_throws_witness :
  let H := scripted "linux" [("adb version"%string, version_banner)] [] 200 in
  findCarThing H [] =
    (Thrown TypeError, ([finding] ++ [Exec version_cmd]) ++ [Exec (devices_cmd "adb")]).
Proof.
  cbv zeta.
  apply (proj1 (findCarThing_listing_failure_throws
                  (scripted "linux" [("adb version"%string, version_banner)] [] 200) []));
    reflexivity.
Defined.

(** ** Resolving the device of an operation *)

(** C8, as the code has it.  An identifier counts as absent when it is
    null or the empty string.  Called with an absent identifier, every
    operation starts a discovery, and it throws the "no device" error
    exactly when that discovery returns null or the empty string.  Called
    with any other identifier, it starts no discovery and does not throw
    that error. *)
Theorem operations_resolve_device
    (H : host) (op : operation) (device : nullable) (h : history) :
  (falsy device = true ->
   (exists evs, snd (run H op device h) = h ++ finding :: evs) /\
   (fst (run H op device h) = Thrown no_device <->
    exists found h',
      findCarThing H h = (Returned found, h') /\ falsy found = true)) /\
  (falsy device = false ->
   exists r evs,
     run H op device h = (r, h ++ evs) /\
     r <> Thrown no_device /\ ~ In finding evs).
Proof.
  split; [| intros Hf; exact (calm_run H op device Hf h)].
  intros Hf. rewrite (run_discovers H op device h Hf).
  destruct (findCarThing_trace H h) as (r & evs & Hfind & Hne).
  rewrite Hfind. destruct r as [found|e].
  - destruct (falsy found) eqn:Hfound.
    + split; [now exists evs |]. split; [| reflexivity].
      intros _. now exists found, (h ++ finding :: evs).
    + destruct (calm_run H op found Hfound (h ++ finding :: evs))
        as (r' & evs' & Hrun & Hne' & _).
      rewrite Hrun. cbn [fst snd]. split.
      * exists (evs ++ evs'). now rewrite <- app_assoc.
      * split; [contradiction |].
        intros (found' & h' & Heq & Hfound'). congruence.
  - cbn [fst snd]. split; [now exists evs |].
    split; [congruence |].
    intros (found' & h' & Heq & _). discriminate.
Qed.

Lemma operations_resolve_device_witness :
  let H := device_host "CT1" (Some "index.html"%string) None in
  (exists r evs,
     run H (OpSetAutoBrightness true) (Some "CT1"%string) [] = (r, [] ++ evs) /\
     r <> Thrown no_device /\ ~ In finding evs) /\
  (exists evs,
     snd (run H (OpSetAutoBrightness true) None []) = [] ++ finding :: evs).
Proof.
  cbv zeta. split.
  - apply (proj2 (operations_resolve_device
                    (device_host "CT1" (Some "index.html"%string) None)
                    (OpSetAutoBrightness true) (Some "CT1"%string) [])).
    reflexivity.
  - apply (proj1 (operations_resolve_device
                    (device_host "CT1" (Some "index.html"%string) None)
                    (OpSetAutoBrightness true) None [])).
    reflexivity.
Defined.

(** C8, refuted as worded: the empty string is an identifier that is not
    null, yet an operation given it starts a discovery; and a discovery
    that returns the empty string (the listing line [<tab>device] names
    it) yields something, yet the operation throws the "no device"
    error. *)
Lemma operations_empty_identifier :
  let H := device_host "" (Some "index.html"%string) None in
  In finding (snd (run H OpRestartChromium (Some ""%string) [])) /\
  fst (findCarThing H []) = Returned (Some ""%string) /\
  fst (run H OpRestartChromium None []) = Thrown no_device.
Proof. cbv zeta. repeat split; try reflexivity. vm_compute. now left. Qed.

(** * Further properties *)

(** ** Operations that ignore what the commands answer *)

Lemma succeeds_ret {A} (a : A) : succeeds (ret a).
Proof. intros h. exists a, []. now rewrite app_nil_r. Qed.

Lemma succeeds_bind {A B} (m : M A) (k : A -> M B) :
  succeeds m -> (forall a, succeeds (k a)) -> succeeds (bind m k).
Proof.
  intros Hm Hk h. destruct (Hm h) as (a & evs & Ha).
  destruct (Hk a (h ++ evs)) as (b & evs' & Hb).
  exists b, (evs ++ evs'). unfold bind. now rewrite Ha, Hb, app_assoc.
Qed.

Lemma succeeds_if {A} (b : bool) (m1 m2 : M A) :
  succeeds m1 -> succeeds m2 -> succeeds (if b then m1 else m2).
Proof. now destruct b. Qed.

Lemma succeeds_log (msg tag : string) (lvl : option level) :
  succeeds (log msg tag lvl).
Proof. intros h. now exists tt, [Log msg tag lvl]. Qed.

Lemma succeeds_execAsync (H : host) (cmd : string) : succeeds (execAsync H cmd).
Proof. intros h. now exists (exec_reply H h cmd), [Exec cmd]. Qed.

Lemma succeeds_for_of {A} (xs : list A) (body : A -> M unit) :
  (forall x, succeeds (body x)) -> succeeds (for_of xs body).
Proof.
  intros Hbody. induction xs as [|x r IH]; cbn [for_of].
  - apply succeeds_ret.
  - apply succeeds_bind; [apply Hbody | intros _; exact IH].
Qed.

Ltac succeed_steps Hadb :=
  repeat match goal with
    | |- succeeds (bind _ _) => apply succeeds_bind; [| intro]
    | |- succeeds (if _ then _ else _) => apply succeeds_if
    | |- succeeds (for_of _ _) => apply succeeds_for_of; intro
    | |- succeeds (log _ _ _) => apply succeeds_log
    | |- succeeds (ret _) => apply succeeds_ret
    | |- succeeds (execAsync _ _) => apply succeeds_execAsync
    | |- succeeds (getAdbExecutable _) => exact Hadb
    end.

Section IgnoredAnswers.

Variable H : host.
Hypothesis Hadb : succeeds (getAdbExecutable H).

Lemma succeeds_restartChromium (device : nullable) :
  falsy device = false -> succeeds (restartChromium H device).
Proof. intros Hf. unfold restartChromium. given_device Hf. succeed_steps Hadb. Qed.

Lemma succeeds_getBrightness (device : nullable) (parse : bool) :
  falsy device = false -> succeeds (getBrightness H device parse).
Proof. intros Hf. unfold getBrightness. given_device Hf. succeed_steps Hadb. Qed.

Lemma succeeds_restore (device : nullable) (restart : bool) :
  falsy device = false -> succeeds (restore H device restart).
Proof.
  intros Hf. unfold restore. given_device Hf. succeed_steps Hadb.
  now apply succeeds_restartChromium.
Qed.

End IgnoredAnswers.



(** ** Resolving the bridge: every case *)

(** Runs [getAdbExecutable] through the answers of the host, one case per
    goal, with the history as one list. *)
Ltac bridge_cases H h :=
  unfold getAdbExecutable, bind, execAsync, existsSync, log, unlinkSync, emit,
    axios_get, pipe_to_file, ret, throw;
  fold version_cmd; fold (install_path H);
  repeat match goal with
    | |- context [if ?b then _ else _] =>
        lazymatch b with
        | context [if _ then _ else _] => fail
        | _ => let E := fresh "E" in destruct b eqn:E
        end
    | |- context [match ?x with Some _ => _ | None => _ end] =>
        lazymatch x with
        | context [match _ with _ => _ end] => fail
        | _ => let E := fresh "E" in destruct x eqn:E
        end
    end;
  repeat rewrite <- app_assoc; cbn [app].


Lemma requests_app (a b : history) : requests (a ++ b) = requests a ++ requests b.
Proof. apply flat_map_app. Qed.


(** ** Discovery on a host that answers the same every time *)

Section Stateless.

Variable H : host.
Variable adb : string.
Hypothesis Hbridge : fixed_bridge H adb.
Hypothesis Hstateless : stateless H.

Lemma checkValidDevice_stateless (device res : string) (h : history) :
  exec_reply H [] (ls_webapp_cmd adb device) = Some res ->
  checkValidDevice H device h =
    (Returned (includes res "index.html"),
     h ++ [Exec version_cmd; Exec (ls_webapp_cmd adb device)]).
Proof.
  intros Hres.
  rewrite (checkValidDevice_listing H h _ adb device res (Hbridge h))
    by (now rewrite Hstateless).
  now rewrite <- app_assoc.
Qed.

Lemma findCarThing_loop_stateless (devices : list string) (h : history) :
  (forall d, In d (through_first (lists_index_html H adb) devices) ->
     exec_reply H [] (ls_webapp_cmd adb d) <> None) ->
  findCarThing_loop H devices h =
    (Returned (find (lists_index_html H adb) devices),
     h ++ flat_map (fun d => [Exec version_cmd; Exec (ls_webapp_cmd adb d)])
            (through_first (lists_index_html H adb) devices)
       ++ [discovery_verdict (find (lists_index_html H adb) devices)]).
Proof.
  revert h. induction devices as [|d rest IH]; intros h Hreplies.
  - reflexivity.
  - cbn [findCarThing_loop through_first find].
    assert (Hd : exec_reply H [] (ls_webapp_cmd adb d) <> None).
    { apply Hreplies. cbn [through_first].
      destruct (lists_index_html H adb d); now left. }
    destruct (exec_reply H [] (ls_webapp_cmd adb d)) as [res |] eqn:Hres;
      [| congruence].
    rewrite (bind_returned _ _ _ _ _ (checkValidDevice_stateless d res h Hres)).
    unfold lists_index_html at 1 3 5. rewrite Hres.
    destruct (includes res "index.html") eqn:Hvalid.
    + cbn [flat_map app discovery_verdict]. unfold bind, log, emit, ret.
      now rewrite <- app_assoc.
    + rewrite IH.
      * cbn [flat_map]. now rewrite <- !app_assoc.
      * intros d' Hd'. apply Hreplies. cbn [through_first].
        unfold lists_index_html at 1. rewrite Hres, Hvalid. now right.
Qed.

End Stateless.



(** X5: a candidate whose web-app listing fails ends the discovery with a
    [TypeError]: the devices listed after it are not tried. *)
Theorem findCarThing_failed_validation_throws
    (H : host) (h h1 h2 : history) (adb device : string) (rest : list string) :
  getDevices H (h ++ [finding]) = (Returned (device :: rest), h1) ->
  getAdbExecutable H h1 = (Returned adb, h2) ->
  exec_reply H h2 (ls_webapp_cmd adb device) = None ->
  findCarThing H h = (Thrown TypeError, h2 ++ [Exec (ls_webapp_cmd adb device)]).
Proof.
  intros Hds Hadb Hres.
  unfold findCarThing, bind at 1, log, emit. fold finding.
  rewrite (bind_returned _ _ _ _ _ Hds). cbn [findCarThing_loop].
  apply bind_thrown. unfold checkValidDevice.
  rewrite (bind_returned _ _ _ _ _ Hadb).
  unfold bind, execAsync. fold (ls_webapp_cmd adb device). now rewrite Hres.
Qed.

Lemma findCarThing_failed_validation_throws_witness :
  findCarThing (device_host "dev" None None) [] =
    (Thrown TypeError,
     [finding; Exec version_cmd; Exec (devices_cmd "adb"); Exec version_cmd]
     ++ [Exec (ls_webapp_cmd "adb" "dev")]).
Proof.
  apply (findCarThing_failed_validation_throws (device_host "dev" None None) []
           [finding; Exec version_cmd; Exec (devices_cmd "adb")]
           [finding; Exec version_cmd; Exec (devices_cmd "adb"); Exec version_cmd]
           "adb" "dev" []); reflexivity.
Defined.

(** ** Installing and restoring, command by command *)

Lemma commands_app (a b : history) : commands (a ++ b) = commands a ++ commands b.
Proof. apply flat_map_app. Qed.

(** Runs an operation on a host with a fixed bridge. *)
Ltac run_fixed Hbridge :=
  unfold bind, execAsync, log, emit, ret;
  repeat (rewrite Hbridge; cbv beta iota).

(** X6: on a given device and a host whose bridge is always [adb] by one
    version check, [installApp] first unmounts and deletes what a previous
    install staged, then pushes the bundle, writes the password, creates
    the marker, bind-mounts, and restarts the browser once, at the end,
    resolving the bridge anew before each of the three stages; it returns
    normally whatever these commands answer. *)
Theorem installApp_commands (H : host) (adb : string) (device : nullable) (h : history) :
  fixed_bridge H adb ->
  falsy device = false ->
  exists h',
    installApp H device h = (Returned tt, h') /\
    commands h' =
      commands h ++
      [ version_cmd;
        shell adb (text device)
          "mountpoint /usr/share/qt-superbird-app/webapp/ > /dev/null && umount /usr/share/qt-superbird-app/webapp";
        shell adb (text device) "rm -rf /tmp/webapp";
        version_cmd;
        adb +++ " -s " +++ text device +++ " push " +++ webAppDir H +++ " /tmp/webapp";
        shell adb (text device) ("echo " +++ socketPassword H +++ " > /tmp/webapp/ws-password");
        shell adb (text device) "touch /tmp/webapp/.glancething";
        shell adb (text device) "mount --bind /tmp/webapp /usr/share/qt-superbird-app/webapp";
        version_cmd;
        shell adb (text device) "supervisorctl restart chromium" ].
Proof.
  intros Hbridge Hf.
  unfold installApp. given_device Hf.
  unfold restore. given_device Hf.
  unfold restartChromium. given_device Hf.
  run_fixed Hbridge.
  eexists. split; [reflexivity |].
  repeat rewrite commands_app. cbn [commands flat_map app].
  rewrite <- !app_assoc. reflexivity.
Qed.

Lemma installApp_commands_witness :
  exists h',
    installApp (backlight_host "dev" None) (Some "dev"%string) [] = (Returned tt, h') /\
    commands h' =
      [ "adb version";
        "adb -s dev shell " +++ quoted "mountpoint /usr/share/qt-superbird-app/webapp/ > /dev/null && umount /usr/share/qt-superbird-app/webapp";
        "adb -s dev shell " +++ quoted "rm -rf /tmp/webapp";
        "adb version";
        "adb -s dev push /app/webapp /tmp/webapp";
        "adb -s dev shell " +++ quoted "echo secret > /tmp/webapp/ws-password";
        "adb -s dev shell " +++ quoted "touch /tmp/webapp/.glancething";
        "adb -s dev shell " +++ quoted "mount --bind /tmp/webapp /usr/share/qt-superbird-app/webapp";
        "adb version";
        "adb -s dev shell " +++ quoted "supervisorctl restart chromium" ]%string.
Proof.
  apply (installApp_commands (backlight_host "dev" None) "adb" (Some "dev"%string) []).
  - intros h. reflexivity.
  - reflexivity.
Defined.

(** ** Failed reads *)

(** X7: when the listing of the marker path fails, [checkInstalledApp]
    does not answer false: it throws a [TypeError]. *)
Theorem checkInstalledApp_failed_listing_throws
    (H : host) (device found : nullable) (h h0 h1 : history) (adb : string) :
  resolve H device h = (Returned found, h0) ->
  falsy found = false ->
  getAdbExecutable H h0 = (Returned adb, h1) ->
  exec_reply H h1 (ls_marker_cmd adb (text found)) = None ->
  checkInstalledApp H device h =
    (Thrown TypeError, h1 ++ [Exec (ls_marker_cmd adb (text found))]).
Proof.
  intros Hfound Hf Hadb Hres.
  unfold checkInstalledApp. fold (resolve H device).
  rewrite (bind_returned _ _ _ _ _ Hfound), Hf.
  rewrite (bind_returned _ _ _ _ _ Hadb).
  unfold bind, execAsync. fold (ls_marker_cmd adb (text found)).
  now rewrite Hres.
Qed.

Lemma checkInstalledApp_failed_listing_throws_witness :
  checkInstalledApp (device_host "dev" (Some "index.html"%string) None)
      (Some "dev"%string) [] =
    (Thrown TypeError, [Exec version_cmd] ++ [Exec (ls_marker_cmd "adb" "dev")]).
Proof.
  apply (checkInstalledApp_failed_listing_throws
           (device_host "dev" (Some "index.html"%string) None)
           (Some "dev"%string) (Some "dev"%string) [] [] [Exec version_cmd] "adb");
    reflexivity.
Defined.

Lemma getBrightness_reads
    (H : host) (device found : nullable) (h h0 h1 : history) (adb : string)
    (parse : bool) :
  resolve H device h = (Returned found, h0) ->
  falsy found = false ->
  getAdbExecutable H h0 = (Returned adb, h1) ->
  let read := cat_brightness_cmd adb (text found) in
  getBrightness H device parse h =
    (Returned (if parse then parseBrightness (text (exec_reply H h1 read))
               else parseInt (text (exec_reply H h1 read))),
     h1 ++ [Exec read]).
Proof.
  intros Hfound Hf Hadb. cbv zeta.
  unfold getBrightness. fold (resolve H device).
  rewrite (bind_returned _ _ _ _ _ Hfound), Hf.
  rewrite (bind_returned _ _ _ _ _ Hadb).
  reflexivity.
Qed.

(** X8: when the register cannot be read (the command fails, or prints
    no number), [getBrightness] still returns: the result is NaN, parsed
    or raw. *)
Theorem getBrightness_unreadable_is_NaN
    (H : host) (device found : nullable) (h h0 h1 : history) (adb : string)
    (parse : bool) :
  resolve H device h = (Returned found, h0) ->
  falsy found = false ->
  getAdbExecutable H h0 = (Returned adb, h1) ->
  let reply := exec_reply H h1 (cat_brightness_cmd adb (text found)) in
  reply = None \/ parseInt (text reply) = NaN ->
  getBrightness H device parse h =
    (Returned NaN, h1 ++ [Exec (cat_brightness_cmd adb (text found))]).
Proof.
  intros Hfound Hf Hadb reply Hreply.
  rewrite (getBrightness_reads H device found h h0 h1 adb parse Hfound Hf Hadb).
  fold reply.
  assert (Hnan : parseInt (text reply) = NaN).
  { destruct Hreply as [-> | Hnan]; [reflexivity | exact Hnan]. }
  unfold parseBrightness. rewrite Hnan. now destruct parse.
Qed.

Lemma getBrightness_unreadable_is_NaN_witness :
  getBrightness (backlight_host "dev" (Some "cat: can't open"%string))
      (Some "dev"%string) true [] =
    (Returned NaN, [Exec version_cmd] ++ [Exec (cat_brightness_cmd "adb" "dev")]).
Proof.
  apply (getBrightness_unreadable_is_NaN
           (backlight_host "dev" (Some "cat: can't open"%string))
           (Some "dev"%string) (Some "dev"%string) [] [] [Exec version_cmd] "adb" true);
    try reflexivity.
  right. reflexivity.
Defined.

Lemma ramp_value_NaN (target : number) (i : Z) : ramp_value NaN target i = NaN.
Proof. reflexivity. Qed.

(** X9: when the register cannot be read, a ramp still issues its ten
    writes, and each of them writes NaN. *)
Theorem setBrightnessSmooth_unreadable_writes_NaN
    (H : host) (device found : nullable) (h h0 h1 h2 : history)
    (adb adb' : string) (brightness : number) :
  resolve H device h = (Returned found, h0) ->
  falsy found = false ->
  getAdbExecutable H h0 = (Returned adb, h1) ->
  getAdbExecutable H h1 = (Returned adb', h2) ->
  let reply := exec_reply H h2 (cat_brightness_cmd adb' (text found)) in
  reply = None \/ parseInt (text reply) = NaN ->
  setBrightnessSmooth H device brightness h =
    (Returned tt,
     (h2 ++ [Exec (cat_brightness_cmd adb' (text found))])
     ++ repeat (Exec (echo_brightness H adb (text found) NaN)) 10).
Proof.
  intros Hfound Hf Hadb Hadb' reply Hreply.
  rewrite (setBrightnessSmooth_trace H device found h h0 h1 h2 adb adb' brightness
             Hfound Hf Hadb Hadb').
  fold reply.
  assert (Hnan : parseInt (text reply) = NaN).
  { destruct Hreply as [-> | Hnan]; [reflexivity | exact Hnan]. }
  rewrite Hnan. reflexivity.
Qed.

Lemma setBrightnessSmooth_unreadable_writes_NaN_witness :
  setBrightnessSmooth (backlight_host "dev" None) (Some "dev"%string) one_half [] =
    (Returned tt,
     ([Exec version_cmd; Exec version_cmd] ++ [Exec (cat_brightness_cmd "adb" "dev")])
     ++ repeat (Exec (echo_brightness (backlight_host "dev" None) "adb" "dev" NaN)) 10).
Proof.
  apply (setBrightnessSmooth_unreadable_writes_NaN (backlight_host "dev" None)
           (Some "dev"%string) (Some "dev"%string) [] [] [Exec version_cmd]
           [Exec version_cmd; Exec version_cmd] "adb" "adb" one_half);
    try reflexivity.
  left. reflexivity.
Defined.

(** ** The register value of a brightness *)

(** Two valid numbers in order between zero and one: their values are in
    the same order. *)
Lemma unit_chain (x y : number) :
  valid_binary prec emax x = true -> valid_binary prec emax y = true ->
  leb (of_Z 0) x = true -> leb x y = true -> leb y (of_Z 1) = true ->
  regular x /\ regular y /\ 0 <= sval x <= sval y /\ sval y <= 2 ^ bias.
Proof.
  intros Hvx Hvy H0 Hxy H1. pose proof bias_pos as HB.
  assert (H0y : leb (of_Z 0) y = true).
  { change (of_Z 0) with (S754_zero false) in *.
    destruct x as [sx | sx | | sx mx ex], y as [sy | sy | | sy my ey];
      try discriminate; try reflexivity;
      try (destruct sx; discriminate); try (destruct sy; discriminate);
      destruct sx, sy; try discriminate; reflexivity. }
  destruct (unit_interval y Hvy H0y H1) as (Hy & Hy0 & Hy1).
  pose proof (valid_regular x Hvx) as Hx.
  change (of_Z 0) with (S754_zero false) in H0.
  destruct x as [sx | sx | | sx mx ex].
  - cbn [sval]. repeat split; auto; lia.
  - destruct sx; [discriminate |].
    destruct y as [sy | sy | | sy my ey]; try discriminate; destruct sy; discriminate.
  - discriminate.
  - assert (sx = false) by (destruct sx; [discriminate | reflexivity]). subst sx.
    split; [exact Hx |]. split; [exact Hy |].
    destruct Hx as [Hex _].
    pose proof (pow2_pos (ex + bias) ltac:(unfold bias; lia)) as HPx.
    split; [| exact Hy1]. split; [cbn [sval cond_Zopp]; lia |].
    destruct y as [sy | sy | | sy my ey]; try discriminate.
    + destruct sy; discriminate.
    + assert (sy = false) by (destruct sy; [discriminate | reflexivity]). subst sy.
      destruct Hy as [Hey _]. cbn [sval cond_Zopp].
      pose proof (pow2_pos (ey + bias) ltac:(unfold bias; lia)) as HPy.
      apply leb_finite_pos in Hxy. destruct Hxy as [Hlt | [-> Hle]].
      * cbn [valid_binary] in Hvx, Hvy. unfold bounded, canonical_mantissa in Hvx, Hvy.
        rewrite andb_true_iff, Z.eqb_eq in Hvx, Hvy.
        destruct Hvx as [Hcx _], Hvy as [Hcy _].
        rewrite digits2_log2 in Hcx, Hcy.
        assert (Hlx : Z.log2 (Zpos mx) <= 52) by (unfold fexp, emin, prec, emax in Hcx; lia).
        assert (Hly : 52 <= Z.log2 (Zpos my)) by (unfold fexp, emin, prec, emax in Hcy; lia).
        pose proof (Z.log2_spec (Zpos mx) ltac:(lia)) as [_ Hmx].
        pose proof (Z.log2_spec (Zpos my) ltac:(lia)) as [Hmy _].
        assert (Hx53 : Zpos mx < 2 ^ 53).
        { eapply Z.lt_le_trans; [exact Hmx | apply Z.pow_le_mono_r; lia]. }
        assert (Hy52 : 2 ^ 52 <= Zpos my).
        { eapply Z.le_trans; [| exact Hmy]. apply Z.pow_le_mono_r; lia. }
        assert (Hstep : 2 * 2 ^ (ex + bias) <= 2 ^ (ey + bias)).
        { change 2 with (2 ^ 1) at 1. rewrite <- Z.pow_add_r by (unfold bias; lia).
          apply Z.pow_le_mono_r; lia. }
        change (2 ^ 53) with (2 * 2 ^ 52) in Hx53.
        set (P := 2 ^ (ex + bias)) in *. set (Q := 2 ^ (ey + bias)) in *.
        set (T := 2 ^ 52) in *. nia.
      * apply Z.mul_le_mono_nonneg_r; lia.
Qed.

(** What is subtracted from 255. *)
Lemma sub_255 (n : Z) : 0 <= n <= 255 -> sub (of_Z 255) (of_Z n) = of_Z (255 - n).
Proof.
  intros Hn.
  assert (Hall : forallb (fun n => number_eqb (sub (of_Z 255) (of_Z n)) (of_Z (255 - n)))
                   (upto 0 256) = true) by (vm_compute; reflexivity).
  rewrite forallb_forall in Hall.
  apply number_eqb_eq, Hall, upto_In. lia.
Qed.

(** The register value of a brightness, from its scaled value. *)
Lemma format_value (b : number) :
  regular b -> 0 <= sval b <= 2 ^ bias ->
  let n := half_up (round (sval b * 255)) in
  0 <= n <= 255 /\ formatBrightness b = of_Z (255 - n).
Proof.
  intros Hb [Hb0 Hb1]. pose proof bias_pos as HB. cbv zeta.
  destruct (of_Z_value 255 ltac:(cbn; lia)) as (H255 & Hv255 & _).
  destruct (mul_frac_value b (of_Z 255) 255 Hb (conj Hb0 Hb1) H255 Hv255 ltac:(cbn; lia))
    as (HF & Hval & _).
  assert (Hrange : 0 * 2 ^ bias <= sval (mul b (of_Z 255)) <= 255 * 2 ^ bias).
  { rewrite Hval. split.
    - rewrite Z.mul_0_l, <- round_zero. apply round_mono. lia.
    - rewrite <- (round_int 255) by (cbn; lia). apply round_mono. nia. }
  destruct (Math_round_between _ 0 255 HF Hrange) as (Hn & Hround).
  rewrite <- Hval. split; [exact Hn |].
  unfold formatBrightness. rewrite Hround.
  set (n := half_up (sval (mul b (of_Z 255)))) in *.
  destruct (Z.eqb_spec n 0) as [-> | Hnz].
  - destruct (sign (mul b (of_Z 255))); vm_compute; reflexivity.
  - apply sub_255. lia.
Qed.

(** X10: for a brightness between 0 and 1, [setBrightness] issues one
    write, of an integer between 0 and 255; there is no floor at 1, and
    full brightness writes 0. *)
Theorem setBrightness_writes_once
    (H : host) (device found : nullable) (h h0 h1 : history) (adb : string)
    (brightness : number) :
  resolve H device h = (Returned found, h0) ->
  falsy found = false ->
  getAdbExecutable H h0 = (Returned adb, h1) ->
  valid_binary prec emax brightness = true ->
  leb (of_Z 0) brightness = true -> leb brightness (of_Z 1) = true ->
  exists n,
    0 <= n <= 255 /\ formatBrightness brightness = of_Z n /\
    (brightness = of_Z 1 -> n = 0) /\
    setBrightness H device brightness h =
      (Returned tt, h1 ++ [Exec (echo_brightness H adb (text found) (of_Z n))]).
Proof.
  intros Hfound Hf Hadb Hvalid H0 H1.
  destruct (unit_interval brightness Hvalid H0 H1) as (Hb & Hrange).
  destruct (format_value brightness Hb Hrange) as (Hn & Hformat).
  exists (255 - half_up (round (sval brightness * 255))).
  split; [lia |]. split; [exact Hformat |]. split.
  - intros Hone.
    replace (sval brightness) with (2 ^ bias) by (rewrite Hone; symmetry; exact sval_one).
    replace (2 ^ bias * 255) with (255 * 2 ^ bias) by lia.
    rewrite round_int, half_up_int by (cbn; lia). reflexivity.
  - unfold setBrightness. fold (resolve H device).
    rewrite (bind_returned _ _ _ _ _ Hfound), Hf.
    rewrite (bind_returned _ _ _ _ _ Hadb).
    cbv zeta. rewrite Hformat. reflexivity.
Qed.

Lemma setBrightness_writes_once_witness :
  exists n,
    0 <= n <= 255 /\ formatBrightness one_half = of_Z n /\
    (one_half = of_Z 1 -> n = 0) /\
    setBrightness (backlight_host "dev" None) (Some "dev"%string) one_half [] =
      (Returned tt,
       [Exec version_cmd]
       ++ [Exec (echo_brightness (backlight_host "dev" None) "adb" "dev" (of_Z n))]).
Proof.
  apply (setBrightness_writes_once (backlight_host "dev" None)
           (Some "dev"%string) (Some "dev"%string) [] [] [Exec version_cmd] "adb" one_half);
    reflexivity.
Defined.

(** X11: [formatBrightness] is antitone on the unit interval: a higher
    brightness never gives a higher register value. *)
Theorem formatBrightness_antitone (b1 b2 : number) :
  valid_binary prec emax b1 = true -> valid_binary prec emax b2 = true ->
  leb (of_Z 0) b1 = true -> leb b1 b2 = true -> leb b2 (of_Z 1) = true ->
  exists n1 n2,
    formatBrightness b1 = of_Z n1 /\ formatBrightness b2 = of_Z n2 /\
    0 <= n2 <= n1 /\ n1 <= 255.
Proof.
  intros Hv1 Hv2 H0 H12 H1. pose proof bias_pos as HB.
  destruct (unit_chain b1 b2 Hv1 Hv2 H0 H12 H1) as (Hr1 & Hr2 & [Hs0 Hs12] & Hs1).
  destruct (format_value b1 Hr1 ltac:(lia)) as (Hn1 & Hf1).
  destruct (format_value b2 Hr2 ltac:(lia)) as (Hn2 & Hf2).
  eexists _, _. split; [exact Hf1 |]. split; [exact Hf2 |].
  assert (Hle : half_up (round (sval b1 * 255)) <= half_up (round (sval b2 * 255))).
  { apply half_up_mono, round_mono. lia. }
  lia.
Qed.

Lemma formatBrightness_antitone_witness :
  exists n1 n2,
    formatBrightness one_half = of_Z n1 /\ formatBrightness (of_Z 1) = of_Z n2 /\
    0 <= n2 <= n1 /\ n1 <= 255.
Proof.
  apply (formatBrightness_antitone one_half (of_Z 1)); reflexivity.
Defined.

(** X12: on the register's range the two transforms are exact inverses:
    a raw value from 0 to 255 parses to a brightness between 0 and 1, and
    formatting that brightness gives the raw value back. *)
Theorem parse_format_exact (raw : Z) (s : string) :
  0 <= raw <= 255 -> parseInt s = of_Z raw ->
  let b := parseBrightness s in
  valid_binary prec emax b = true /\
  leb (of_Z 0) b = true /\ leb b (of_Z 1) = true /\
  formatBrightness b = of_Z raw.
Proof.
  intros Hraw Hs. cbv zeta. unfold parseBrightness. rewrite Hs.
  assert (Hall : forallb
                   (fun raw =>
                      let b := sub (of_Z 1) (div (of_Z raw) (of_Z 255)) in
                      valid_binary prec emax b && leb (of_Z 0) b && leb b (of_Z 1)
                      && number_eqb (formatBrightness b) (of_Z raw))
                   (upto 0 256) = true) by (vm_compute; reflexivity).
  rewrite forallb_forall in Hall.
  specialize (Hall raw ltac:(apply upto_In; lia)). cbv zeta in Hall.
  rewrite !andb_true_iff in Hall. destruct Hall as [[[Hv H0] H1] Heq].
  repeat split; auto. now apply number_eqb_eq.
Qed.

Lemma parse_format_exact_witness :
  valid_binary prec emax (parseBrightness "200") = true /\
  leb (of_Z 0) (parseBrightness "200") = true /\
  leb (parseBrightness "200") (of_Z 1) = true /\
  formatBrightness (parseBrightness "200") = of_Z 200.
Proof.
  apply (parse_format_exact 200 "200"); [lia | reflexivity].
Defined.

(** X13: a ramp from a register value between 1 and 255 to a brightness
    between 0 and 1 writes ten integers between 1 and 255: the backlight
    is never switched off on the way, and the last write is the register
    value of the brightness, floored at 1. *)
Theorem setBrightnessSmooth_stays_lit
    (H : host) (device found : nullable) (h h0 h1 h2 : history)
    (adb adb' : string) (brightness : number) (c : Z) :
  resolve H device h = (Returned found, h0) ->
  falsy found = false ->
  getAdbExecutable H h0 = (Returned adb, h1) ->
  getAdbExecutable H h1 = (Returned adb', h2) ->
  parseInt (text (exec_reply H h2 (cat_brightness_cmd adb' (text found)))) = of_Z c ->
  1 <= c <= 255 ->
  valid_binary prec emax brightness = true ->
  leb (of_Z 0) brightness = true -> leb brightness (of_Z 1) = true ->
  exists (values : list Z) (n : Z),
    setBrightnessSmooth H device brightness h =
      (Returned tt,
       (h2 ++ [Exec (cat_brightness_cmd adb' (text found))])
       ++ map (fun v => Exec (echo_brightness H adb (text found) (of_Z v))) values) /\
    List.length values = 10%nat /\
    Forall (fun v => 1 <= v <= 255) values /\
    formatBrightness brightness = of_Z n /\
    last values 0 = Z.max n 1.
Proof.
  intros Hfound Hf Hadb Hadb' Hcur Hc Hvalid H0 H1.
  destruct (unit_interval brightness Hvalid H0 H1) as (Hb & Hrange).
  destruct (format_value brightness Hb Hrange) as (Hn & Hformat).
  set (n := 255 - half_up (round (sval brightness * 255))) in *.
  set (t := Z.max n 1).
  assert (Ht : Math_max (formatBrightness brightness) (of_Z 1) = of_Z t).
  { rewrite Hformat.
    assert (Hall : forallb (fun n => number_eqb (Math_max (of_Z n) (of_Z 1))
                                       (of_Z (Z.max n 1)))
                     (upto 0 256) = true) by (vm_compute; reflexivity).
    rewrite forallb_forall in Hall.
    apply number_eqb_eq, Hall, upto_In. lia. }
  exists (map (ramp_int c t) (upto 1 10)), n.
  rewrite (setBrightnessSmooth_trace H device found h h0 h1 h2 adb adb' brightness
             Hfound Hf Hadb Hadb').
  rewrite Hcur, Ht, map_map.
  assert (Hc53 : 0 <= c < 2 ^ 53) by (change (2 ^ 53) with 9007199254740992; lia).
  assert (Ht53 : 0 <= t < 2 ^ 53) by (change (2 ^ 53) with 9007199254740992; lia).
  split; [| split; [| split; [| split]]].
  - f_equal. f_equal. apply map_ext_in. intros i Hi. apply upto_In in Hi.
    rewrite ramp_value_int by lia. reflexivity.
  - rewrite length_map, length_upto. reflexivity.
  - apply Forall_forall. intros v Hv. apply in_map_iff in Hv.
    destruct Hv as (i & <- & Hi). apply upto_In in Hi.
    pose proof (ramp_int_bounds c t i Hc53 Ht53 ltac:(lia)). lia.
  - exact Hformat.
  - change (last (map (ramp_int c t) (upto 1 10)) 0) with (ramp_int c t 10).
    apply ramp_int_last; assumption.
Qed.

Lemma setBrightnessSmooth_stays_lit_witness :
  exists (values : list Z) (n : Z),
    setBrightnessSmooth (backlight_host "dev" (Some "200"%string))
        (Some "dev"%string) (of_Z 1) [] =
      (Returned tt,
       ([Exec version_cmd; Exec version_cmd] ++ [Exec (cat_brightness_cmd "adb" "dev")])
       ++ map (fun v => Exec (echo_brightness (backlight_host "dev" (Some "200"%string))
                                "adb" "dev" (of_Z v))) values) /\
    List.length values = 10%nat /\
    Forall (fun v => 1 <= v <= 255) values /\
    formatBrightness (of_Z 1) = of_Z n /\
    last values 0 = Z.max n 1.
Proof.
  apply (setBrightnessSmooth_stays_lit (backlight_host "dev" (Some "200"%string))
           (Some "dev"%string) (Some "dev"%string) [] [] [Exec version_cmd]
           [Exec version_cmd; Exec version_cmd] "adb" "adb" (of_Z 1) 200);
    first [reflexivity | lia].
Defined.

(** ** How far the ramp is from the straight line *)

Lemma round_pos_error (u : Z) : 0 <= u -> Z.abs (round_pos u - u) <= 2 ^ grid u.
Proof.
  intros Hu. unfold round_pos.
  pose proof (grid_nonneg u) as Hg.
  pose proof (pow2_pos (grid u) Hg) as HP.
  pose proof (rne_bounds u (grid u) Hg) as Hr.
  pose proof (Z.div_mod u (2 ^ grid u) ltac:(lia)) as Hdm.
  pose proof (Z.mod_pos_bound u (2 ^ grid u) HP) as Hm.
  set (P := 2 ^ grid u) in *. set (q := u / P) in *. set (r := u mod P) in *.
  set (n := rne u (grid u)) in *.
  assert (Hn : n = q \/ n = q + 1) by lia.
  destruct Hn as [-> | ->]; lia.
Qed.

Lemma grid_below (u k : Z) : 0 <= u < 2 ^ k -> bias - 1021 <= k -> grid u <= k - 53.
Proof.
  intros [Hu Hk] Hb. unfold grid. apply Z.max_lub; [| lia].
  destruct (Z.eq_dec u 0) as [-> | Hne].
  - change (Z.log2 0) with 0. unfold bias in Hb. lia.
  - assert (Z.log2 u < k) by (apply Z.log2_lt_pow2; lia). lia.
Qed.

(** Rounding moves a value by at most one step of its grid. *)
Lemma round_error (u k : Z) :
  Z.abs u < 2 ^ k -> bias - 1021 <= k -> Z.abs (round u - u) <= 2 ^ (k - 53).
Proof.
  intros Hu Hk.
  assert (Hg : grid (Z.abs u) <= k - 53) by (apply grid_below; lia).
  pose proof (grid_nonneg (Z.abs u)) as Hg0.
  assert (Hp : 2 ^ grid (Z.abs u) <= 2 ^ (k - 53)) by (apply Z.pow_le_mono_r; lia).
  pose proof (round_pos_error (Z.abs u) (Z.abs_nonneg u)) as He.
  destruct (Z.le_gt_cases 0 u) as [Hpos | Hneg].
  - rewrite round_nonneg_eq by exact Hpos.
    rewrite (Z.abs_eq u) in He, Hp by exact Hpos.
    set (P := 2 ^ grid u) in *. set (T := 2 ^ (k - 53)) in *.
    set (w := round_pos u) in *. lia.
  - rewrite round_nonpos_eq by lia.
    rewrite (Z.abs_neq u) in He, Hp by lia.
    set (P := 2 ^ grid (- u)) in *. set (T := 2 ^ (k - 53)) in *.
    set (w := round_pos (- u)) in *. lia.
Qed.

Lemma kstep_error_at (i : Z) (mi : positive) (ei : Z) :
  kstep i = S754_finite false mi ei -> -60 <= ei ->
  (Z.abs (10 * (Zpos mi * 2 ^ (ei + 60)) - i * 2 ^ 60) <=? 2 ^ 10) = true ->
  Z.abs (10 * sval (kstep i) - i * 2 ^ bias) <= 2 ^ (bias - 50).
Proof.
  intros -> He Hle. apply Z.leb_le in Hle. cbn [sval cond_Zopp].
  replace (ei + bias) with ((ei + 60) + (bias - 60)) by lia.
  replace (2 ^ bias) with (2 ^ 60 * 2 ^ (bias - 60))
    by (rewrite <- Z.pow_add_r by (unfold bias; lia); f_equal; lia).
  replace (2 ^ (bias - 50)) with (2 ^ 10 * 2 ^ (bias - 60))
    by (rewrite <- Z.pow_add_r by (unfold bias; lia); f_equal; lia).
  rewrite (Z.pow_add_r 2 (ei + 60) (bias - 60)) by (unfold bias; lia).
  pose proof (pow2_pos (bias - 60) ltac:(unfold bias; lia)) as HQ.
  set (Q := 2 ^ (bias - 60)) in *. set (p := Zpos mi * 2 ^ (ei + 60)) in *.
  replace (10 * (Zpos mi * (2 ^ (ei + 60) * Q)) - i * (2 ^ 60 * Q))
    with ((10 * p - i * 2 ^ 60) * Q) by (unfold p; ring).
  rewrite Z.abs_mul, (Z.abs_eq Q) by lia.
  apply Z.mul_le_mono_nonneg_r; lia.
Qed.

(** Each of the ten fractions is [i / 10], up to the rounding of the
    division. *)
Lemma kstep_error (i : Z) :
  1 <= i <= 10 -> Z.abs (10 * sval (kstep i) - i * 2 ^ bias) <= 2 ^ (bias - 50).
Proof.
  intros Hi.
  assert (Hcases : In i (upto 1 10)) by (apply upto_In; lia).
  cbn [upto In] in Hcases.
  repeat (destruct Hcases as [<- | Hcases]); try contradiction;
    cbn [Z.add Pos.add Pos.succ];
    match goal with
    | |- Z.abs (10 * sval (kstep ?a) - _) <= _ =>
        let va := eval vm_compute in (kstep a) in
        match va with
        | S754_finite false ?mi ?ei =>
            exact (kstep_error_at a mi ei ltac:(vm_compute; reflexivity) ltac:(lia)
                     ltac:(vm_compute; reflexivity))
        end
    end.
Qed.

(** [Math.round] of a value close to a multiple of a tenth. *)
Lemma half_up_near (w E : Z) :
  Z.abs (10 * w - E * 2 ^ bias) < 2 ^ bias -> Z.abs (10 * half_up w - E) <= 5.
Proof.
  intros Hw. unfold half_up.
  assert (HB : 2 ^ bias = 2 * 2 ^ (bias - 1)).
  { change 2 with (2 ^ 1) at 2.
    rewrite <- Z.pow_add_r by (unfold bias; lia). f_equal; lia. }
  pose proof bias_pos as HP.
  pose proof (Z.div_mod (w + 2 ^ (bias - 1)) (2 ^ bias) ltac:(lia)) as Hdm.
  pose proof (Z.mod_pos_bound (w + 2 ^ (bias - 1)) (2 ^ bias) HP) as Hm.
  set (n := (w + 2 ^ (bias - 1)) / 2 ^ bias) in *.
  set (r := (w + 2 ^ (bias - 1)) mod 2 ^ bias) in *.
  set (m := 10 * n - E - 5).
  assert (Heq : 10 * w - E * 2 ^ bias = 2 ^ bias * m + 10 * r).
  { unfold m. set (B := 2 ^ bias) in *. set (F := 2 ^ (bias - 1)) in *.
    replace (B * (10 * n - E - 5)) with (10 * (B * n) - E * B - 5 * B) by ring.
    lia. }
  assert (Hmn : m = 10 * n - E - 5) by reflexivity.
  rewrite Heq in Hw. clearbody m. clear Heq Hdm HB.
  set (B := 2 ^ bias) in *.
  assert (Hm0 : m <= 0) by nia.
  assert (Hm10 : -10 <= m) by nia.
  lia.
Qed.

(** The two sums of errors of a step, over the unit [Q]. *)
Lemma sum_arith (Q cb p u : Z) :
  0 < Q ->
  0 <= cb <= 4294967295 * (1125899906842624 * Q) ->
  Z.abs u <= 4294967295 * (1125899906842624 * Q) ->
  Z.abs (p - u) <= 536870912 * Q ->
  Z.abs (cb + p) < 17179869184 * (1125899906842624 * Q).
Proof. lia. Qed.

Lemma line_arith (Q a b e : Z) :
  0 < Q ->
  Z.abs a <= 2147483648 * Q -> Z.abs b <= 536870912 * Q -> Z.abs e <= 4294967295 * Q ->
  Z.abs (10 * a + 10 * b + e) < 1125899906842624 * Q.
Proof. lia. Qed.

(** The integer of a step is the point on the straight line from [c] to
    [t], rounded to a nearest integer. *)
Lemma ramp_int_line (c t i : Z) :
  0 <= c < 2 ^ 32 -> 0 <= t < 2 ^ 32 -> 1 <= i <= 10 ->
  Z.abs (10 * ramp_int c t i - (10 * c + (t - c) * i)) <= 5.
Proof.
  intros Hc Ht Hi.
  change (2 ^ 32) with 4294967296 in Hc, Ht.
  destruct (kstep_props i Hi) as (_ & Hk & _).
  pose proof (kstep_error i Hi) as Hek.
  unfold ramp_int.
  set (k := sval (kstep i)) in *. set (d := t - c).
  assert (Hd : Z.abs d <= 4294967295) by (unfold d; lia).
  (* the powers of two, over one unit *)
  pose proof (pow2_pos (bias - 50) ltac:(unfold bias; lia)) as HQ.
  assert (HB : 2 ^ bias = 1125899906842624 * 2 ^ (bias - 50)).
  { change 1125899906842624 with (2 ^ 50).
    rewrite <- Z.pow_add_r by (unfold bias; lia). f_equal; lia. }
  assert (HH : 2 ^ (bias - 1) = 562949953421312 * 2 ^ (bias - 50)).
  { change 562949953421312 with (2 ^ 49).
    rewrite <- Z.pow_add_r by (unfold bias; lia). f_equal; lia. }
  assert (H1 : 2 ^ (bias + 32 - 53) = 536870912 * 2 ^ (bias - 50)).
  { change 536870912 with (2 ^ 29).
    rewrite <- Z.pow_add_r by (unfold bias; lia). f_equal; lia. }
  assert (H2 : 2 ^ (bias + 34 - 53) = 2147483648 * 2 ^ (bias - 50)).
  { change 2147483648 with (2 ^ 31).
    rewrite <- Z.pow_add_r by (unfold bias; lia). f_equal; lia. }
  assert (H32 : 2 ^ (bias + 32) = 4294967296 * 2 ^ bias).
  { change 4294967296 with (2 ^ 32).
    rewrite <- Z.pow_add_r by (unfold bias; lia). f_equal; lia. }
  assert (H34 : 2 ^ (bias + 34) = 17179869184 * 2 ^ bias).
  { change 17179869184 with (2 ^ 34).
    rewrite <- Z.pow_add_r by (unfold bias; lia). f_equal; lia. }
  (* the product *)
  assert (Hu : Z.abs (d * k) <= 4294967295 * 2 ^ bias).
  { rewrite Z.abs_mul, (Z.abs_eq k) by apply Hk.
    apply Z.mul_le_mono_nonneg; [apply Z.abs_nonneg | exact Hd | apply Hk | apply Hk]. }
  pose proof (round_error (d * k) (bias + 32)
                ltac:(rewrite H32; lia) ltac:(lia)) as He1.
  rewrite H1 in He1.
  (* the sum *)
  set (p := round (d * k)) in *.
  assert (Hv : Z.abs (c * 2 ^ bias + p) < 2 ^ (bias + 34)).
  { assert (Hcb : 0 <= c * 2 ^ bias <= 4294967295 * 2 ^ bias)
      by (split; [apply Z.mul_nonneg_nonneg | apply Z.mul_le_mono_nonneg_r]; lia).
    rewrite H34. rewrite HB in Hcb, Hu |- *.
    exact (sum_arith _ _ _ _ HQ Hcb Hu He1). }
  pose proof (round_error (c * 2 ^ bias + p) (bias + 34) Hv ltac:(lia)) as He2.
  rewrite H2 in He2.
  set (w := round (c * 2 ^ bias + p)) in *.
  (* the fraction *)
  assert (Hdk : Z.abs (d * (10 * k - i * 2 ^ bias)) <= 4294967295 * 2 ^ (bias - 50)).
  { rewrite Z.abs_mul.
    apply Z.mul_le_mono_nonneg;
      [apply Z.abs_nonneg | exact Hd | apply Z.abs_nonneg | exact Hek]. }
  assert (Hline : Z.abs (10 * w - (10 * c + d * i) * 2 ^ bias) < 2 ^ bias).
  { replace (10 * w - (10 * c + d * i) * 2 ^ bias)
      with (10 * (w - (c * 2 ^ bias + p)) + 10 * (p - d * k)
            + d * (10 * k - i * 2 ^ bias)) by ring.
    set (a := w - (c * 2 ^ bias + p)) in *. set (b := p - d * k) in *.
    set (e := d * (10 * k - i * 2 ^ bias)) in *.
    rewrite HB. exact (line_arith _ a b e HQ He2 He1 Hdk). }
  (* the rounding to an integer *)
  apply half_up_near. exact Hline.
Qed.

(** X14: each value of a ramp between two integers below [2 ^ 32] is the
    point [c + (t - c) * i / 10] of the straight line, rounded to a
    nearest integer: ten times the value written is at most 5 away from
    [10 * c + (t - c) * i]. *)
Theorem ramp_value_on_the_line (c t i : Z) :
  0 <= c < 2 ^ 32 -> 0 <= t < 2 ^ 32 -> 1 <= i <= 10 ->
  exists n,
    ramp_value (of_Z c) (of_Z t) i = of_Z n /\
    Z.abs (10 * n - (10 * c + (t - c) * i)) <= 5.
Proof.
  intros Hc Ht Hi. exists (ramp_int c t i). split.
  - apply ramp_value_int; [| | exact Hi].
    + change (2 ^ 32) with 4294967296 in Hc. change (2 ^ 53) with 9007199254740992. lia.
    + change (2 ^ 32) with 4294967296 in Ht. change (2 ^ 53) with 9007199254740992. lia.
  - now apply ramp_int_line.
Qed.

Lemma ramp_value_on_the_line_witness :
  exists n,
    ramp_value (of_Z 200) (of_Z 127) 3 = of_Z n /\
    Z.abs (10 * n - (10 * 200 + (127 - 200) * 3)) <= 5.
Proof.
  apply (ramp_value_on_the_line 200 127 3); [split | split |]; try lia;
    reflexivity.
Defined.

(** ** Failures of the bridge *)



